(** * The Org writer of go-org: a shallow embedding of [org/org.go]

    The writer walks an already parsed document tree and prints it back as
    Org text.  In the Go source every [writeX] method appends to the
    [strings.Builder] embedded in the [*OrgWriter] receiver and may panic; here
    a method is a function from the writer state to either the next writer
    state or the panic value, and [w.writeNodes] is the dispatcher all
    methods re-enter for their children. *)

From Stdlib Require Import ZArith Lia String Ascii List Bool.
From stdpp Require Import base option list strings gmap.

Set Warnings "-register-all".

Local Open Scope Z_scope.
Local Open Scope string_scope.

(** ** Machine integers

    Go's [int] is a 64-bit two's complement integer on the platforms the
    fuzzing image targets; arithmetic wraps around silently. *)

Definition minInt : Z := - 2 ^ 63.
Definition maxInt : Z := 2 ^ 63 - 1.

Definition wrapInt (z : Z) : Z := (z + 2 ^ 63) mod 2 ^ 64 - 2 ^ 63.

Definition intSub (a b : Z) : Z := wrapInt (a - b).

(** [len(s)] of a Go string: its number of bytes. *)
Definition len (s : string) : Z := Z.of_nat (String.length s).

(** ** Characters the writer emits that have no literal spelling *)

Definition newline : string := String (ascii_of_nat 10) EmptyString.
Definition tab : string := String (ascii_of_nat 9) EmptyString.
Definition dquote : string := String (ascii_of_nat 34) EmptyString.

(** ** The document tree

    [Node] is [interface{}] in Go: the dispatcher receives any value.  The
    twenty struct types of the type switch are constructors; [Nil] is the nil
    interface value, and [Foreign] stands for a value of any other dynamic
    type, carried by the text [%#v] prints for it.

    The struct declarations live in other files of the package; a
    constructor has the fields the writer reads, under their Go names.
    [Table.Header] and [TableHeader.Separator] are handed to [writeNodes]
    as they are and so are nodes; [RegularLink.Description] is a slice the
    writer compares with [nil]; [FootnoteLink.Definition] is a pointer to a
    [FootnoteDefinition], [None] when nil. *)

Record FootnoteDefinitionOf (N : Type) : Type := mkFootnoteDefinition {
  fdName : string;
  fdChildren : list N;
  fdInline : bool
}.
Arguments mkFootnoteDefinition {N} _ _ _.
Arguments fdName {N} _.
Arguments fdChildren {N} _.
Arguments fdInline {N} _.

Inductive Node : Type :=
| Nil
| Foreign (repr : string)
| Comment (Content : string)
| Keyword (Key Value : string)
| NodeWithMeta (n : Node) (Caption : list (list Node))
               (HTMLAttributes : list (list string))
| Headline (Lvl : Z) (Status Priority : string) (Title : list Node)
           (Tags : list string) (Children : list Node)
| Block (Name : string) (Parameters : list string) (Children : list Node)
| FootnoteDefinition (f : FootnoteDefinitionOf Node)
| List (Items : list Node)
| ListItem (Bullet : string) (Children : list Node)
| Table (Header : Node) (Rows : list Node)
| TableHeader (Columns : list (list Node)) (Separator : Node)
| TableRow (Columns : list (list Node))
| TableSeparator (Content : string)
| Paragraph (Children : list Node)
| HorizontalRule
| Text (Content : string)
| Emphasis (Kind : string) (Content : list Node)
| LineBreak (Count : Z)
| ExplicitLineBreak
| RegularLink (URL : string) (Description : option (list Node))
              (AutoLink : bool)
| FootnoteLink (Name : string) (Definition_ : option (FootnoteDefinitionOf Node)).

Abbreviation FootnoteDefinitionT := (FootnoteDefinitionOf Node).

(** The footnote table of a document: [fs.Title] and the map
    [fs.Definitions] are the two fields the writer reads. *)
Record Footnotes : Type := mkFootnotes {
  Title : string;
  Definitions : gmap string FootnoteDefinitionT
}.

Record Document : Type := mkDocument {
  Nodes : list Node;
  DocFootnotes : Footnotes
}.

(** ** Panics

    A panic unwinds the whole render; its value is what the runtime would
    print.  [BadNode] and [BadEmphasis] are the two [panic(fmt.Sprintf(...))]
    calls of the writer, kept structured: the offending value instead of its
    [%#v] text.  [NegativeRepeatCount] and [RepeatOverflow] are the two
    panics of [strings.Repeat]. *)

Inductive PanicValue : Type :=
| BadNode (repr : string)
| BadEmphasis (Kind : string) (Content : list Node)
| IndexOutOfRange (index length : Z)
| InterfaceConversion (got : Node) (want : string)
| NegativeRepeatCount
| RepeatOverflow.

Inductive result (A : Type) : Type :=
| Ok (a : A)
| Panic (p : PanicValue).
Arguments Ok {A} a.
Arguments Panic {A} p.

Definition bind {A B : Type} (r : result A) (k : A -> result B) : result B :=
  match r with
  | Ok a => k a
  | Panic p => Panic p
  end.

Notation "'let!' x ':=' e 'in' k" := (bind e (fun x => k))
  (at level 10, x name, e at level 200, k at level 200, only parsing).

(** ** The parts of package [strings] the writer calls *)

Module strings.

(** [strings.Repeat(s, count)].  It panics on a negative count, and on a
    count for which [len(s) * count] is no [int]; [count] is itself an
    [int], and the second test is the library's only for such a count.

    The runtime also refuses an allocation of more than its limit of bytes
    (the panic of [makeslice]), which is below [maxInt]: this failure is not
    raised here, where memory is unbounded and a text of any length exists.
    Where the count is an [int] of the tree or of the writer (the level of
    a headline, the count of a line break, the padding before the tags), no
    statement below concludes that the repetition returns: each one takes
    the result of [Repeat] as it comes, or assumes that it returned.  The
    one count the writer computes from a text, [len(li.Bullet)+1], is the
    length of a string in memory and one more. *)
Definition Repeat (s : string) (count : Z) : result string :=
  if (count <? 0)%Z then Panic NegativeRepeatCount
  else if (count <=? maxInt)%Z && (maxInt <? len s * count)%Z
       then Panic RepeatOverflow
       else Ok (Nat.iter (Z.to_nat count) (String.append s) EmptyString).

(** [strings.Join(elems, sep)]. *)
Fixpoint Join (elems : list string) (sep : string) : string :=
  match elems with
  | [] => EmptyString
  | [e] => e
  | e :: rest => e ++ sep ++ Join rest sep
  end.

(** [strings.Split(s, sep)] for a separator of one byte, the only way the
    writer calls it: the pieces between the separators, in order. *)
Fixpoint Split (s : string) (sep : ascii) : list string :=
  match s with
  | EmptyString => [EmptyString]
  | String c rest =>
      if Ascii.eqb c sep then EmptyString :: Split rest sep
      else match Split rest sep with
           | piece :: pieces => String c piece :: pieces
           | [] => [String c EmptyString]
           end
  end.

(** [strings.HasPrefix(s, prefix)]. *)
Fixpoint HasPrefix (s prefix : string) {struct prefix} : bool :=
  match prefix, s with
  | EmptyString, _ => true
  | String p prefix', String c s' => Ascii.eqb c p && HasPrefix s' prefix'
  | String _ _, EmptyString => false
  end.

(** [s[n:]] for [n <= len(s)]. *)
Fixpoint sliceFrom (n : nat) (s : string) : string :=
  match n, s with
  | O, _ => s
  | S n', String _ s' => sliceFrom n' s'
  | S _, EmptyString => EmptyString
  end.

(** [strings.TrimPrefix(s, prefix)]. *)
Definition TrimPrefix (s prefix : string) : string :=
  if HasPrefix s prefix then sliceFrom (String.length prefix) s else s.

(** [strings.ContainsAny(s, chars)] for ASCII [chars]. *)
Fixpoint ContainsAny (s chars : string) : bool :=
  match s with
  | EmptyString => false
  | String c s' =>
      existsb (Ascii.eqb c) (list_ascii_of_string chars) || ContainsAny s' chars
  end.

End strings.

(** ** The writer state *)

Record OrgWriter : Type := mkOrgWriter {
  TagsColumn : Z;          (* see org-tags-column *)
  stringBuilder : string;  (* the embedded strings.Builder: the text so far *)
  indent : string
}.

Definition NewOrgWriter : OrgWriter :=
  {| TagsColumn := 77; stringBuilder := EmptyString; indent := EmptyString |}.

Definition emptyClone (w : OrgWriter) : OrgWriter :=
  {| TagsColumn := TagsColumn w;
     stringBuilder := EmptyString;
     indent := indent w |}.

(** [w.WriteString(s)] and [w.String()] of the embedded builder. *)
Definition WriteString (s : string) (w : OrgWriter) : OrgWriter :=
  {| TagsColumn := TagsColumn w;
     stringBuilder := stringBuilder w ++ s;
     indent := indent w |}.

Definition String_ (w : OrgWriter) : string := stringBuilder w.

Definition withIndent (i : string) (w : OrgWriter) : OrgWriter :=
  {| TagsColumn := TagsColumn w; stringBuilder := stringBuilder w; indent := i |}.

(** A method of [*OrgWriter]: the writer after the call, or the panic. *)
Definition Method : Type := OrgWriter -> result OrgWriter.

(** [for _, x := range xs { body(x) }] *)
Definition forEach {A : Type} (body : A -> Method) : list A -> Method :=
  fix loop (xs : list A) : Method :=
    fun w =>
      match xs with
      | [] => Ok w
      | x :: rest => let! w := body x w in loop rest w
      end.

(** [for i, x := range xs { body(i, x) }], entered at index [i]. *)
Definition forEachFrom {A : Type} (body : Z -> A -> Method)
  : Z -> list A -> Method :=
  fix loop (i : Z) (xs : list A) {struct xs} : Method :=
    fun w =>
      match xs with
      | [] => Ok w
      | x :: rest => let! w := body i x w in loop (i + 1)%Z rest w
      end.

(** The fixed border table of the emphasis kinds. *)
Definition emphasisOrgBorders : gmap string (list string) :=
  list_to_map
    [ ("_", ["_"; "_"]);
      ("*", ["*"; "*"]);
      ("/", ["/"; "/"]);
      ("+", ["+"; "+"]);
      ("~", ["~"; "~"]);
      ("=", ["="; "="]);
      ("_{}", ["_{"; "}"]);
      ("^{}", ["^{"; "}"]) ].

(** [xs[i]] of a slice of strings. *)
Definition index (xs : list string) (i : nat) : result string :=
  match xs !! i with
  | Some x => Ok x
  | None => Panic (IndexOutOfRange (Z.of_nat i) (Z.of_nat (length xs)))
  end.

(** [ns[i]] of a slice of nodes. *)
Definition nodeAt (ns : list Node) (i : nat) : result Node :=
  match ns !! i with
  | Some n => Ok n
  | None => Panic (IndexOutOfRange (Z.of_nat i) (Z.of_nat (length ns)))
  end.

(** The type assertion [n.(Text).Content]. *)
Definition assertText (n : Node) : result string :=
  match n with
  | Text Content => Ok Content
  | _ => Panic (InterfaceConversion n "org.Text")
  end.

(** The inner loop of [writeNodeWithMeta]:
    [for i := 0; i < len(attributes)-1; i += 2], which reads [attributes[i]]
    and [attributes[i+1]] and so leaves a trailing odd element unread. *)
Fixpoint writeAttributes (attributes : list string) (w : OrgWriter) : OrgWriter :=
  match attributes with
  | key :: value :: rest =>
      let w := WriteString (key ++ " ") w in
      let w :=
        if strings.ContainsAny value (tab ++ " ")
        then WriteString (dquote ++ value ++ dquote) w
        else WriteString value w in
      writeAttributes rest w
  | _ => w
  end.

(** ** An instance of the parameters

    The writer is parametric in three functions of the package that [org.go]
    does not define.  The closed examples fix the first two: the source and
    example blocks as raw kinds, a paragraph without children as the
    empty-line paragraph. *)

Definition exampleRawTextBlock (name : string) : bool :=
  String.eqb name "SRC" || String.eqb name "EXAMPLE".

Definition exampleEmptyLineParagraph (n : Node) : bool :=
  match n with
  | Paragraph [] => true
  | _ => false
  end.

Definition exampleWriter : OrgWriter :=
  {| TagsColumn := 10; stringBuilder := EmptyString; indent := EmptyString |}.

(** The data of the closed examples of the footnote section: a table with
    one definition, flagged inline, which is also the only ordered one. *)
Definition exampleInlineDefinition : FootnoteDefinitionT :=
  mkFootnoteDefinition "1" [Paragraph [Text "note"]] true.

Definition exampleFootnotes : Footnotes :=
  mkFootnotes "Footnotes" {[ "1" := exampleInlineDefinition ]}.

Definition exampleOrdered (fs : Footnotes) : list FootnoteDefinitionT :=
  [exampleInlineDefinition].

(** The headline [Foo] with the tags [a] and [b], and writers with the tags
    column at 20 and at the least [int]. *)
Definition exampleHeadline : Node :=
  Headline 1 EmptyString EmptyString [Text "Foo"] ["a"; "b"] [].

Definition exampleWideWriter : OrgWriter :=
  {| TagsColumn := 20; stringBuilder := EmptyString; indent := EmptyString |}.

Definition exampleMinWriter : OrgWriter :=
  {| TagsColumn := minInt; stringBuilder := EmptyString; indent := EmptyString |}.

(** A writer two spaces deep. *)
Definition exampleIndentedWriter : OrgWriter :=
  {| TagsColumn := 77; stringBuilder := EmptyString; indent := "  " |}.

(** A headline without tags over a list item, a source block and an
    autolink.  The second child of the block and the description of the
    link are headlines with tags: the writer never reaches them. *)
Definition examplePlainTree : list Node :=
  [Headline 1 EmptyString EmptyString [Text "T"] []
     [ListItem "-" [Paragraph [Text "a"]];
      Block "SRC" [] [Text "x"; exampleHeadline];
      RegularLink "u" (Some [exampleHeadline]) true]].

(** A text, a bold span and a described link. *)
Definition exampleInline : list Node :=
  [Text "a"; Emphasis "*" [Text "b"]; RegularLink "u" (Some [Text "d"]) false].

(** A writer with a tags column, an indentation and a text of its own. *)
Definition exampleOtherWriter : OrgWriter :=
  {| TagsColumn := 5; stringBuilder := "zz"; indent := "    " |}.

(** ** Induction on the tree

    [Node] is nested in [list], [option] and the footnote record, so the
    induction principle states the hypothesis on every child explicitly. *)

Definition onOption {A : Type} (Q : A -> Prop) (o : option A) : Prop :=
  match o with
  | Some a => Q a
  | None => True
  end.

Section NodeInduction.

Variable P : Node -> Prop.

Hypothesis P_Nil : P Nil.
Hypothesis P_Foreign : forall repr, P (Foreign repr).
Hypothesis P_Comment : forall Content, P (Comment Content).
Hypothesis P_Keyword : forall Key Value, P (Keyword Key Value).
Hypothesis P_NodeWithMeta : forall n Caption HTMLAttributes,
  P n -> Forall (Forall P) Caption -> P (NodeWithMeta n Caption HTMLAttributes).
Hypothesis P_Headline : forall Lvl Status Priority Title Tags Children,
  Forall P Title -> Forall P Children ->
  P (Headline Lvl Status Priority Title Tags Children).
Hypothesis P_Block : forall Name Parameters Children,
  Forall P Children -> P (Block Name Parameters Children).
Hypothesis P_FootnoteDefinition : forall f,
  Forall P (fdChildren f) -> P (FootnoteDefinition f).
Hypothesis P_List : forall Items, Forall P Items -> P (List Items).
Hypothesis P_ListItem : forall Bullet Children,
  Forall P Children -> P (ListItem Bullet Children).
Hypothesis P_Table : forall Header Rows,
  P Header -> Forall P Rows -> P (Table Header Rows).
Hypothesis P_TableHeader : forall Columns Separator,
  Forall (Forall P) Columns -> P Separator -> P (TableHeader Columns Separator).
Hypothesis P_TableRow : forall Columns,
  Forall (Forall P) Columns -> P (TableRow Columns).
Hypothesis P_TableSeparator : forall Content, P (TableSeparator Content).
Hypothesis P_Paragraph : forall Children,
  Forall P Children -> P (Paragraph Children).
Hypothesis P_HorizontalRule : P HorizontalRule.
Hypothesis P_Text : forall Content, P (Text Content).
Hypothesis P_Emphasis : forall Kind Content,
  Forall P Content -> P (Emphasis Kind Content).
Hypothesis P_LineBreak : forall Count, P (LineBreak Count).
Hypothesis P_ExplicitLineBreak : P ExplicitLineBreak.
Hypothesis P_RegularLink : forall URL Description AutoLink,
  onOption (Forall P) Description -> P (RegularLink URL Description AutoLink).
Hypothesis P_FootnoteLink : forall Name Definition_,
  onOption (fun f => Forall P (fdChildren f)) Definition_ ->
  P (FootnoteLink Name Definition_).

Fixpoint Node_nested_ind (n : Node) : P n :=
  let all :=
    fix all (ns : list Node) : Forall P ns :=
      match ns with
      | [] => @List.Forall_nil Node P
      | x :: rest => @List.Forall_cons Node P x rest (Node_nested_ind x) (all rest)
      end in
  let all2 :=
    fix all2 (nss : list (list Node)) : Forall (Forall P) nss :=
      match nss with
      | [] => @List.Forall_nil (list Node) (Forall P)
      | ns :: rest => @List.Forall_cons (list Node) (Forall P) ns rest (all ns) (all2 rest)
      end in
  match n with
  | Nil => P_Nil
  | Foreign repr => P_Foreign repr
  | Comment Content => P_Comment Content
  | Keyword Key Value => P_Keyword Key Value
  | NodeWithMeta n Caption HTMLAttributes =>
      P_NodeWithMeta n Caption HTMLAttributes (Node_nested_ind n) (all2 Caption)
  | Headline Lvl Status Priority Title Tags Children =>
      P_Headline Lvl Status Priority Title Tags Children (all Title) (all Children)
  | Block Name Parameters Children =>
      P_Block Name Parameters Children (all Children)
  | FootnoteDefinition f => P_FootnoteDefinition f (all (fdChildren f))
  | List Items => P_List Items (all Items)
  | ListItem Bullet Children => P_ListItem Bullet Children (all Children)
  | Table Header Rows =>
      P_Table Header Rows (Node_nested_ind Header) (all Rows)
  | TableHeader Columns Separator =>
      P_TableHeader Columns Separator (all2 Columns) (Node_nested_ind Separator)
  | TableRow Columns => P_TableRow Columns (all2 Columns)
  | TableSeparator Content => P_TableSeparator Content
  | Paragraph Children => P_Paragraph Children (all Children)
  | HorizontalRule => P_HorizontalRule
  | Text Content => P_Text Content
  | Emphasis Kind Content => P_Emphasis Kind Content (all Content)
  | LineBreak Count => P_LineBreak Count
  | ExplicitLineBreak => P_ExplicitLineBreak
  | RegularLink URL Description AutoLink =>
      P_RegularLink URL Description AutoLink
        (match Description as d return onOption (Forall P) d with
         | Some ns => all ns
         | None => I
         end)
  | FootnoteLink Name Definition_ =>
      P_FootnoteLink Name Definition_
        (match Definition_ as d
               return onOption (fun f => Forall P (fdChildren f)) d with
         | Some f => all (fdChildren f)
         | None => I
         end)
  end.

End NodeInduction.

Section Writer.

(** Three functions of the package are defined in files other than
    [org.go]; the writer is parametric in them. *)
Variable isRawTextBlock : string -> bool.
Variable isEmptyLineParagraph : Node -> bool.
Variable Ordered : Footnotes -> list FootnoteDefinitionT.

Section Methods.

(** The dispatcher every method calls back into. *)
Variable writeNodes : list Node -> Method.

Definition writeHeadline (Lvl : Z) (Status Priority : string)
    (Title : list Node) (Tags : list string) (Children : list Node)
  : Method := fun w =>
  let tmp := emptyClone w in
  let! stars := strings.Repeat "*" Lvl in
  let tmp := WriteString stars tmp in
  let tmp :=
    if String.eqb Status EmptyString then tmp
    else WriteString (" " ++ Status) tmp in
  let tmp :=
    if String.eqb Priority EmptyString then tmp
    else WriteString (" [#" ++ Priority ++ "]") tmp in
  let tmp := WriteString " " tmp in
  let! tmp := writeNodes Title tmp in
  let hString := String_ tmp in
  let! w :=
    if negb (Nat.eqb (length Tags) 0) then
      let hString := hString ++ " " in
      let tString := ":" ++ strings.Join Tags ":" ++ ":" in
      let n := intSub (intSub (TagsColumn w) (len tString)) (len hString) in
      if (n >? 0)%Z then
        let! spaces := strings.Repeat " " n in
        Ok (WriteString (hString ++ spaces ++ tString) w)
      else Ok (WriteString (hString ++ tString) w)
    else Ok (WriteString hString w) in
  let w := WriteString newline w in
  let w :=
    if negb (Nat.eqb (length Children) 0) then WriteString (indent w) w
    else w in
  writeNodes Children w.

Definition writeBlock (Name : string) (Parameters : list string)
    (Children : list Node) : Method := fun w =>
  let w := WriteString (indent w ++ "#+BEGIN_" ++ Name) w in
  let w :=
    if negb (Nat.eqb (length Parameters) 0)
    then WriteString (" " ++ strings.Join Parameters " ") w
    else w in
  let w := WriteString newline w in
  let! w :=
    if isRawTextBlock Name then
      let! first := nodeAt Children 0 in
      let! content := assertText first in
      forEach
        (fun line w => Ok (WriteString (indent w ++ line ++ newline) w))
        (strings.Split content (ascii_of_nat 10)) w
    else writeNodes Children w in
  Ok (WriteString (indent w ++ "#+END_" ++ Name ++ newline) w).

Definition writeFootnotes (d : Document) : Method := fun w =>
  let fs := DocFootnotes d in
  if Nat.eqb (size (Definitions fs)) 0 then Ok w
  else
    let w := WriteString ("* " ++ Title fs ++ newline) w in
    forEach
      (fun definition w =>
         if negb (fdInline definition)
         then writeNodes [FootnoteDefinition definition] w
         else Ok w)
      (Ordered fs) w.

Definition writeFootnoteDefinition (f : FootnoteDefinitionT) : Method :=
  fun w =>
  let w := WriteString ("[fn:" ++ fdName f ++ "]") w in
  let w :=
    if negb (match fdChildren f with
             | first :: _ => isEmptyLineParagraph first
             | [] => false
             end)
    then WriteString " " w
    else w in
  writeNodes (fdChildren f) w.

Definition writeParagraph (Children : list Node) : Method := fun w =>
  let! w := writeNodes Children w in
  Ok (WriteString newline w).

Definition writeKeyword (Key Value : string) : Method := fun w =>
  Ok (WriteString (indent w ++ ("#+" ++ Key ++ ": " ++ Value ++ newline)) w).

Definition writeNodeWithMeta (n : Node) (Caption : list (list Node))
    (HTMLAttributes : list (list string)) : Method := fun w =>
  let! w :=
    forEach
      (fun ns w =>
         let w := WriteString "#+CAPTION: " w in
         let! w := writeNodes ns w in
         Ok (WriteString newline w))
      Caption w in
  let! w :=
    forEach
      (fun attributes w =>
         let w := WriteString "#+ATTR_HTML: " w in
         let w := writeAttributes attributes w in
         Ok (WriteString newline w))
      HTMLAttributes w in
  writeNodes [n] w.

Definition writeComment (Content : string) : Method := fun w =>
  Ok (WriteString (indent w ++ "#" ++ Content) w).

Definition writeList (Items : list Node) : Method := writeNodes Items.

(** [len(li.Bullet)+1] cannot wrap: a string in memory is far shorter
    than [maxInt] bytes. *)
Definition writeListItem (Bullet : string) (Children : list Node)
  : Method := fun w =>
  let w := WriteString (indent w ++ Bullet ++ " ") w in
  let liWriter := emptyClone w in
  let! spaces := strings.Repeat " " (len Bullet + 1) in
  let liWriter := withIndent (indent w ++ spaces) liWriter in
  let! liWriter := writeNodes Children liWriter in
  Ok (WriteString
        (strings.TrimPrefix (String_ liWriter) (indent liWriter)) w).

Definition writeTableSeparator (Content : string) : Method := fun w =>
  Ok (WriteString (indent w ++ Content ++ newline) w).

Definition writeTableColumns (columns : list (list Node)) : Method :=
  fun w =>
  let w := WriteString (indent w ++ "| ") w in
  let! w :=
    forEachFrom
      (fun i columnNodes w =>
         let! w := writeNodes columnNodes w in
         let w := WriteString " |" w in
         Ok (if (i <? Z.of_nat (length columns) - 1)%Z
             then WriteString " " w
             else w))
      0 columns w in
  Ok (WriteString newline w).

Definition writeTable (Header : Node) (Rows : list Node) : Method :=
  fun w =>
  let! w := writeNodes [Header] w in
  writeNodes Rows w.

Definition writeTableHeader (Columns : list (list Node))
    (Separator : Node) : Method := fun w =>
  let! w := writeTableColumns Columns w in
  writeNodes [Separator] w.

Definition writeTableRow (Columns : list (list Node)) : Method :=
  writeTableColumns Columns.

Definition writeHorizontalRule : Method := fun w =>
  Ok (WriteString (indent w ++ "-----" ++ newline) w).

Definition writeText (Content : string) : Method := fun w =>
  Ok (WriteString Content w).

Definition writeEmphasis (Kind : string) (Content : list Node) : Method :=
  fun w =>
  match emphasisOrgBorders !! Kind with
  | None => Panic (BadEmphasis Kind Content)
  | Some borders =>
      let! left := index borders 0 in
      let w := WriteString left w in
      let! w := writeNodes Content w in
      let! right := index borders 1 in
      Ok (WriteString right w)
  end.

Definition writeLineBreak (Count : Z) : Method := fun w =>
  let! breaks := strings.Repeat (newline ++ indent w) Count in
  Ok (WriteString breaks w).

Definition writeExplicitLineBreak : Method := fun w =>
  Ok (WriteString ("\\" ++ newline ++ indent w) w).

(** [l.Definition.Children[0].(Paragraph).Children]: the index
    expression panics on an empty slice, the type assertion on a first
    child of another type. *)
Definition writeFootnoteLink (Name : string)
    (Definition_ : option FootnoteDefinitionT) : Method := fun w =>
  let w := WriteString ("[fn:" ++ Name) w in
  let! w :=
    match Definition_ with
    | Some definition =>
        let w := WriteString ":" w in
        match fdChildren definition with
        | first :: _ =>
            match first with
            | Paragraph Children => writeNodes Children w
            | _ => Panic (InterfaceConversion first "org.Paragraph")
            end
        | [] => Panic (IndexOutOfRange 0 0)
        end
    | None => Ok w
    end in
  Ok (WriteString "]" w).

Definition writeRegularLink (URL : string)
    (Description : option (list Node)) (AutoLink : bool) : Method :=
  fun w =>
  if AutoLink then Ok (WriteString URL w)
  else
    match Description with
    | None => Ok (WriteString ("[[" ++ URL ++ "]]") w)
    | Some Description =>
        let descriptionWriter := emptyClone w in
        let! descriptionWriter := writeNodes Description descriptionWriter in
        let description := String_ descriptionWriter in
        Ok (WriteString ("[[" ++ URL ++ "][" ++ description ++ "]]") w)
    end.

End Methods.

(** The body of the loop of [writeNodes]: the type switch. *)
Fixpoint writeNode (n : Node) {struct n} : Method :=
  match n with
  | Comment Content => writeComment Content
  | Keyword Key Value => writeKeyword Key Value
  | NodeWithMeta n Caption HTMLAttributes =>
      writeNodeWithMeta (forEach writeNode) n Caption HTMLAttributes
  | Headline Lvl Status Priority Title Tags Children =>
      writeHeadline (forEach writeNode) Lvl Status Priority Title Tags Children
  | Block Name Parameters Children =>
      writeBlock (forEach writeNode) Name Parameters Children
  | FootnoteDefinition f => writeFootnoteDefinition (forEach writeNode) f
  | List Items => writeList (forEach writeNode) Items
  | ListItem Bullet Children =>
      writeListItem (forEach writeNode) Bullet Children
  | Table Header Rows => writeTable (forEach writeNode) Header Rows
  | TableHeader Columns Separator =>
      writeTableHeader (forEach writeNode) Columns Separator
  | TableRow Columns => writeTableRow (forEach writeNode) Columns
  | TableSeparator Content => writeTableSeparator Content
  | Paragraph Children => writeParagraph (forEach writeNode) Children
  | HorizontalRule => writeHorizontalRule
  | Text Content => writeText Content
  | Emphasis Kind Content => writeEmphasis (forEach writeNode) Kind Content
  | LineBreak Count => writeLineBreak Count
  | ExplicitLineBreak => writeExplicitLineBreak
  | RegularLink URL Description AutoLink =>
      writeRegularLink (forEach writeNode) URL Description AutoLink
  | FootnoteLink Name Definition_ =>
      writeFootnoteLink (forEach writeNode) Name Definition_
  | Foreign repr => fun _ => Panic (BadNode repr)
  | Nil => fun w => Ok w
  end.

Definition writeNodes : list Node -> Method := forEach writeNode.

Definition before (d : Document) : Method := fun w => Ok w.

Definition after (d : Document) : Method := writeFootnotes writeNodes d.

(** The text an isolated sub-render of [ns] yields: the Go pattern
    [tmp := w.emptyClone(); tmp.writeNodes(ns...); tmp.String()]. *)
Definition render (ns : list Node) (w : OrgWriter) : result string :=
  let! tmp := writeNodes ns (emptyClone w) in
  Ok (String_ tmp).

(** Appending the outcome of a sub-render to a writer. *)
Definition emit (r : result string) (w : OrgWriter) : result OrgWriter :=
  let! s := r in Ok (WriteString s w).

(** A method that only appends to the builder, the appended text being a
    function of the configuration (indentation and tags column). *)
Definition appends (m : Method) : Prop :=
  exists text : string -> Z -> result string,
    forall w, m w = emit (text (indent w) (TagsColumn w)) w.

(** ** Derived notions the theorems are stated with *)

(** What [writeAttributes] appends: each key, a space, and its value, between
    double quotes when the value holds a tab or a space. *)
Definition attributesText : list string -> string :=
  fix go (attributes : list string) : string :=
    match attributes with
    | key :: value :: rest =>
        (key ++ " ")
        ++ (if strings.ContainsAny value (tab ++ " ")
            then dquote ++ value ++ dquote else value)
        ++ go rest
    | _ => EmptyString
    end.

(** Every line behind [prefix] and before a newline. *)
(** The number of bytes [c] in [s]. *)
Fixpoint countByte (c : ascii) (s : string) : nat :=
  match s with
  | EmptyString => 0
  | String x rest => (if Ascii.eqb x c then 1 else 0) + countByte c rest
  end.

Definition linesText (prefix : string) (lines : list string) : string :=
  fold_right (fun line acc => (prefix ++ line ++ newline) ++ acc) EmptyString lines.

(** The induction carries, for a paragraph, the fact on each of its
    children as well: [writeFootnoteLink] renders the children of a
    paragraph it finds one level below its own argument. *)
Definition appendsDeep (n : Node) : Prop :=
  appends (writeNode n) /\
  match n with
  | Paragraph Children => Forall (fun c => appends (writeNode c)) Children
  | _ => True
  end.

(** The keys of [emphasisOrgBorders]. *)
Definition emphasisKinds : list string :=
  ["_"; "*"; "/"; "+"; "~"; "="; "_{}"; "^{}"].

(** The text between [[fn:name]] and the children of a definition. *)
Definition definitionSeparator (Children : list Node) : string :=
  match Children with
  | first :: _ => if isEmptyLineParagraph first then EmptyString else " "
  | [] => " "
  end.

(** The section of footnote definitions, as the nodes it dispatches. *)
Definition sectionDefinitions (fs : Footnotes) : list Node :=
  map FootnoteDefinition (filter (fun d => negb (fdInline d)) (Ordered fs)).

(** [n] spaces. *)
Definition spaces (n : nat) : string :=
  Nat.iter n (String.append " ") EmptyString.

(** The indentation of the isolated writer of a list item. *)
Definition itemIndent (Bullet : string) (w : OrgWriter) : string :=
  indent w ++ spaces (S (String.length Bullet)).

(** The texts of the cells of a row, each rendered in isolation, in order. *)
Fixpoint renderColumns (columns : list (list Node)) (w : OrgWriter)
  : result (list string) :=
  match columns with
  | [] => Ok []
  | columnNodes :: rest =>
      let! cell := render columnNodes w in
      let! cells := renderColumns rest w in
      Ok (cell :: cells)
  end.

(** The text of the isolated writer of a headline before the tags: the
    stars, the status and the priority when present, one space, the title. *)
Definition headlineTitle (stars Status Priority title : string) : string :=
  stars
  ++ (if String.eqb Status EmptyString then EmptyString else " " ++ Status)
  ++ (if String.eqb Priority EmptyString then EmptyString
      else " [#" ++ Priority ++ "]")
  ++ " " ++ title.


(** [s] repeated [n] times, the text [strings.Repeat] returns. *)
Definition repeated (s : string) (n : nat) : string :=
  Nat.iter n (String.append s) EmptyString.

(** The strings of a list, back to back. *)
Definition concatStrings (pieces : list string) : string :=
  fold_right String.append EmptyString pieces.

(** The opening and the closing line of a block. *)
Definition blockBegin (Name : string) (Parameters : list string) (w : OrgWriter)
  : string :=
  indent w ++ "#+BEGIN_" ++ Name
  ++ (if Nat.eqb (length Parameters) 0 then EmptyString
      else " " ++ strings.Join Parameters " ")
  ++ newline.

Definition blockEnd (Name : string) (w : OrgWriter) : string :=
  indent w ++ "#+END_" ++ Name ++ newline.

(** The caption lines and the attribute lines of a node with meta. *)
Definition captionLines (captions : list string) : string :=
  concatStrings (map (fun caption => "#+CAPTION: " ++ caption ++ newline) captions).

Definition attributeLines (HTMLAttributes : list (list string)) : string :=
  concatStrings
    (map (fun attributes => "#+ATTR_HTML: " ++ attributesText attributes ++ newline)
       HTMLAttributes).

(** The line of a table row, and the lines of a sequence of rows. *)
Definition rowText (columns : list (list Node)) (w : OrgWriter) : result string :=
  let! cells := renderColumns columns w in
  Ok (indent w ++ "| "
      ++ strings.Join (map (fun cell => cell ++ " |") cells) " "
      ++ newline).

Fixpoint rowsText (rows : list (list (list Node))) (w : OrgWriter)
  : result string :=
  match rows with
  | [] => Ok EmptyString
  | columns :: rest =>
      let! line := rowText columns w in
      let! lines := rowsText rest w in
      Ok (line ++ lines)
  end.

(** The nodes whose method starts by writing the indentation. *)
Definition indentFirst (n : Node) : bool :=
  match n with
  | Comment _ => true
  | Keyword _ _ => true
  | Block _ _ _ => true
  | ListItem _ _ => true
  | TableHeader _ _ => true
  | TableRow _ => true
  | TableSeparator _ => true
  | HorizontalRule => true
  | _ => false
  end.

(** A tree no headline of which has tags, the places the writer never
    descends into set aside: the children of a block of a raw kind, the
    description of an autolink, and of the definition of a footnote link
    all but the children of a first paragraph. *)
Fixpoint tagFree (n : Node) : bool :=
  match n with
  | NodeWithMeta n Caption _ => tagFree n && forallb (forallb tagFree) Caption
  | Headline _ _ _ Title Tags Children =>
      Nat.eqb (length Tags) 0 && forallb tagFree Title
      && forallb tagFree Children
  | Block Name _ Children => isRawTextBlock Name || forallb tagFree Children
  | FootnoteDefinition f => forallb tagFree (fdChildren f)
  | List Items => forallb tagFree Items
  | ListItem _ Children => forallb tagFree Children
  | Table Header Rows => tagFree Header && forallb tagFree Rows
  | TableHeader Columns Separator =>
      forallb (forallb tagFree) Columns && tagFree Separator
  | TableRow Columns => forallb (forallb tagFree) Columns
  | Paragraph Children => forallb tagFree Children
  | Emphasis _ Content => forallb tagFree Content
  | RegularLink _ Description AutoLink =>
      AutoLink
      || match Description with
         | Some ns => forallb tagFree ns
         | None => true
         end
  | FootnoteLink _ Definition_ =>
      match Definition_ with
      | Some definition =>
          match fdChildren definition with
          | Paragraph Children :: _ => forallb tagFree Children
          | _ => true
          end
      | None => true
      end
  | _ => true
  end.

(** Inline content without line breaks: texts, emphasis, links and footnote
    links, nested in one another. *)
Fixpoint inlineOnly (n : Node) : bool :=
  match n with
  | Nil => true
  | Text _ => true
  | Emphasis _ Content => forallb inlineOnly Content
  | RegularLink _ Description _ =>
      match Description with
      | Some ns => forallb inlineOnly ns
      | None => true
      end
  | FootnoteLink _ Definition_ =>
      match Definition_ with
      | Some definition =>
          match fdChildren definition with
          | Paragraph Children :: _ => forallb inlineOnly Children
          | _ => true
          end
      | None => true
      end
  | _ => false
  end.

Definition inlineOnlyDeep (n : Node) : Prop :=
  (inlineOnly n = true -> forall w v, render [n] v = render [n] w) /\
  match n with
  | Paragraph Children =>
      forallb inlineOnly Children = true ->
      forall w v, render Children v = render Children w
  | _ => True
  end.

Definition tagFreeDeep (n : Node) : Prop :=
  (tagFree n = true ->
   forall w v, indent v = indent w -> render [n] v = render [n] w) /\
  match n with
  | Paragraph Children =>
      forallb tagFree Children = true ->
      forall w v, indent v = indent w -> render Children v = render Children w
  | _ => True
  end.

(** ** Facts on strings *)

Lemma append_nil_r (s : string) : s ++ EmptyString = s.
Proof. induction s as [|c s IH]; [reflexivity|]. unfold String.append in *. fold String.append in *. now rewrite IH. Qed.

Lemma append_assoc (a b c : string) : (a ++ b) ++ c = a ++ (b ++ c).
Proof.
  induction a as [|x a IH]; [reflexivity|].
  change ((String x a ++ b) ++ c) with (String x ((a ++ b) ++ c)).
  now rewrite IH.
Qed.

Lemma append_cons (c : ascii) (a b : string) :
  String c a ++ b = String c (a ++ b).
Proof. reflexivity. Qed.

Lemma len_append (a b : string) : len (a ++ b) = (len a + len b)%Z.
Proof.
  unfold len. induction a as [|x a IH]; [reflexivity|].
  rewrite append_cons. cbn [String.length]. lia.
Qed.

Lemma len_nonneg (s : string) : (0 <= len s)%Z.
Proof. unfold len. lia. Qed.

(** ** Facts on the builder *)

Lemma WriteString_WriteString (a b : string) (w : OrgWriter) :
  WriteString b (WriteString a w) = WriteString (a ++ b) w.
Proof. unfold WriteString. cbn. now rewrite append_assoc. Qed.

Lemma WriteString_empty (w : OrgWriter) : WriteString EmptyString w = w.
Proof. destruct w. unfold WriteString. cbn. now rewrite append_nil_r. Qed.

(** Two renders that return the same writer appended texts of one length. *)
Lemma WriteString_len (a b : string) (w : OrgWriter) :
  Ok (WriteString a w) = Ok (WriteString b w) -> len a = len b.
Proof.
  intros H.
  assert (E : stringBuilder (WriteString a w) = stringBuilder (WriteString b w))
    by congruence.
  unfold WriteString in E. cbn [stringBuilder] in E.
  apply (f_equal len) in E. rewrite !len_append in E. lia.
Qed.

(** ** Loops of appending bodies append *)

Lemma appends_intro (m : Method) :
  (forall w, m w = emit (let! tmp := m (emptyClone w) in Ok (String_ tmp)) w) ->
  appends m.
Proof.
  intros H.
  exists (fun i t => let! tmp := m (mkOrgWriter t EmptyString i) in Ok (String_ tmp)).
  exact H.
Qed.

Lemma appends_seq (m1 m2 : Method) :
  appends m1 -> appends m2 -> appends (fun w => let! w := m1 w in m2 w).
Proof.
  intros [f1 H1] [f2 H2].
  exists (fun i t => let! a := f1 i t in let! b := f2 i t in Ok (a ++ b)).
  intros w. rewrite H1.
  destruct (f1 (indent w) (TagsColumn w)) as [a|p]; [|reflexivity].
  cbn. rewrite H2. cbn.
  destruct (f2 (indent w) (TagsColumn w)) as [b|p]; [|reflexivity].
  cbn. now rewrite WriteString_WriteString.
Qed.

Lemma appends_forEach {A : Type} (body : A -> Method) (xs : list A) :
  Forall (fun x => appends (body x)) xs -> appends (forEach body xs).
Proof.
  induction 1 as [|x rest Hx _ IH].
  - exists (fun _ _ => Ok EmptyString). intros w. cbn.
    now rewrite WriteString_empty.
  - exact (appends_seq _ _ Hx IH).
Qed.

Lemma appends_forEachFrom {A : Type} (body : Z -> A -> Method) (xs : list A) :
  Forall (fun x => forall i, appends (body i x)) xs ->
  forall i, appends (forEachFrom body i xs).
Proof.
  induction 1 as [|x rest Hx _ IH]; intros i.
  - exists (fun _ _ => Ok EmptyString). intros w. cbn.
    now rewrite WriteString_empty.
  - exact (appends_seq _ _ (Hx i) (IH (i + 1)%Z)).
Qed.

(** ** Every method appends

    A method never reads the text already in the builder, nor changes the
    configuration of its receiver: it appends a text that depends on the
    indentation and the tags column alone. *)

Lemma append_nil_l (s : string) : EmptyString ++ s = s.
Proof. reflexivity. Qed.

(** The two loops over strings, in closed form. *)

Lemma writeAttributes_text (attributes : list string) (w : OrgWriter) :
  writeAttributes attributes w = WriteString (attributesText attributes) w.
Proof.
  revert w.
  induction attributes as [attributes IH] using (induction_ltof1 _ (@length string)).
  unfold ltof in IH. intros w.
  destruct attributes as [|key [|value rest]];
    [cbn; now rewrite WriteString_empty..|].
  cbn [writeAttributes attributesText].
  rewrite IH by (cbn; lia).
  destruct (strings.ContainsAny value (tab ++ " "));
    now rewrite !WriteString_WriteString, ?append_assoc.
Qed.

Lemma writeLines_text (lines : list string) (w : OrgWriter) :
  forEach (fun line w => Ok (WriteString (indent w ++ line ++ newline) w)) lines w
  = Ok (WriteString (linesText (indent w) lines) w).
Proof.
  revert w. induction lines as [|line lines IH]; intros w.
  - cbn. now rewrite WriteString_empty.
  - cbn [forEach bind linesText fold_right]. rewrite IH.
    cbn [indent WriteString]. fold (linesText (indent w) lines).
    now rewrite WriteString_WriteString.
Qed.

Lemma writeLines_text_unfolded (lines : list string) (w : OrgWriter) :
  forEach
    (fun line w =>
       Ok {| TagsColumn := TagsColumn w;
             stringBuilder := stringBuilder w ++ indent w ++ line ++ newline;
             indent := indent w |}) lines w
  = Ok (WriteString (linesText (indent w) lines) w).
Proof. exact (writeLines_text lines w). Qed.

Ltac case_result r :=
  lazymatch r with
  | Ok _ => fail
  | Panic _ => fail
  | bind _ _ => fail
  | emit _ _ => fail
  | match _ with _ => _ end => fail
  | _ => destruct r eqn:?
  end.

Ltac case_step :=
  match goal with
  | |- context [emit ?r _] => case_result r
  | |- context [bind ?r _] => case_result r
  | |- context [if ?b then _ else _] => case_result b
  | |- context [match ?x with _ => _ end] => case_result x
  end.

Ltac case_if :=
  match goal with
  | |- context [if ?b then _ else _] => case_result b
  end.

Ltac use_case :=
  match goal with
  | E : ?r = _ |- context [?r] => rewrite E
  end.

Ltac builder_norm :=
  repeat (progress
            (cbn [TagsColumn stringBuilder indent bind emit];
             rewrite ?writeLines_text, ?writeLines_text_unfolded,
               ?writeAttributes_text;
             unfold emptyClone, withIndent, WriteString, String_));
  rewrite ?append_nil_l, ?append_assoc.

Ltac use_appends :=
  match goal with
  | H : forall w, _ = emit _ w |- _ => rewrite !H
  end.

Ltac appends_auto :=
  apply appends_intro; intros ?w;
  builder_norm;
  repeat (first [use_case | case_if | use_appends | case_step]; builder_norm);
  try reflexivity.

Section MethodsAppend.

Variable wn : list Node -> Method.

Lemma writeHeadline_appends Lvl Status Priority Title Tags Children :
  appends (wn Title) -> appends (wn Children) ->
  appends (writeHeadline wn Lvl Status Priority Title Tags Children).
Proof.
  intros [f H] [g G]. unfold writeHeadline. appends_auto.
Qed.

Lemma writeBlock_appends Name Parameters Children :
  appends (wn Children) -> appends (writeBlock wn Name Parameters Children).
Proof.
  intros [f H]. unfold writeBlock. appends_auto.
Qed.

Lemma writeFootnoteDefinition_appends f :
  appends (wn (fdChildren f)) -> appends (writeFootnoteDefinition wn f).
Proof.
  intros [g G]. unfold writeFootnoteDefinition. appends_auto.
Qed.

Lemma writeParagraph_appends Children :
  appends (wn Children) -> appends (writeParagraph wn Children).
Proof.
  intros [f H]. unfold writeParagraph. appends_auto.
Qed.

Lemma writeKeyword_appends Key Value : appends (writeKeyword Key Value).
Proof. unfold writeKeyword. appends_auto. Qed.

Lemma writeComment_appends Content : appends (writeComment Content).
Proof. unfold writeComment. appends_auto. Qed.

Lemma writeNodeWithMeta_appends n Caption HTMLAttributes :
  appends (wn [n]) -> Forall (fun ns => appends (wn ns)) Caption ->
  appends (writeNodeWithMeta wn n Caption HTMLAttributes).
Proof.
  intros Hn HCaption. unfold writeNodeWithMeta.
  refine (appends_seq _ (fun w => let! w := _ w in wn [n] w) _ _).
  - apply appends_forEach.
    eapply Forall_impl; [exact HCaption|].
    intros ns [f H]. appends_auto.
  - refine (appends_seq _ _ _ Hn).
    apply appends_forEach, Forall_forall. intros attributes _.
    appends_auto.
Qed.

Lemma writeListItem_appends Bullet Children :
  appends (wn Children) -> appends (writeListItem wn Bullet Children).
Proof.
  intros [f H]. unfold writeListItem. appends_auto.
Qed.

Lemma writeTableSeparator_appends Content :
  appends (writeTableSeparator Content).
Proof. unfold writeTableSeparator. appends_auto. Qed.

Lemma writeTableColumns_appends columns :
  Forall (fun ns => appends (wn ns)) columns ->
  appends (writeTableColumns wn columns).
Proof.
  intros Hcolumns. unfold writeTableColumns.
  generalize (Z.of_nat (length columns) - 1)%Z. intros last.
  assert (Hloop : forall i, appends
            (forEachFrom
               (fun i columnNodes w =>
                  let! w := wn columnNodes w in
                  let w := WriteString " |" w in
                  Ok (if (i <? last)%Z then WriteString " " w else w))
               i columns)).
  { apply appends_forEachFrom.
    eapply Forall_impl; [exact Hcolumns|].
    intros ns [f H] i. appends_auto. }
  destruct (Hloop 0%Z) as [g G]. appends_auto.
Qed.

Lemma writeTable_appends Header Rows :
  appends (wn [Header]) -> appends (wn Rows) ->
  appends (writeTable wn Header Rows).
Proof. intros H1 H2. exact (appends_seq _ _ H1 H2). Qed.

Lemma writeTableHeader_appends Columns Separator :
  Forall (fun ns => appends (wn ns)) Columns -> appends (wn [Separator]) ->
  appends (writeTableHeader wn Columns Separator).
Proof.
  intros H1 H2.
  exact (appends_seq _ _ (writeTableColumns_appends _ H1) H2).
Qed.

Lemma writeHorizontalRule_appends : appends writeHorizontalRule.
Proof. unfold writeHorizontalRule. appends_auto. Qed.

Lemma writeText_appends Content : appends (writeText Content).
Proof. unfold writeText. appends_auto. Qed.

Lemma writeEmphasis_appends Kind Content :
  appends (wn Content) -> appends (writeEmphasis wn Kind Content).
Proof.
  intros [f H]. unfold writeEmphasis. appends_auto.
Qed.

Lemma writeLineBreak_appends Count : appends (writeLineBreak Count).
Proof. unfold writeLineBreak. appends_auto. Qed.

Lemma writeExplicitLineBreak_appends : appends writeExplicitLineBreak.
Proof. unfold writeExplicitLineBreak. appends_auto. Qed.

Lemma writeFootnoteLink_appends Name Definition_ :
  onOption
    (fun definition =>
       match fdChildren definition with
       | Paragraph Children :: _ => appends (wn Children)
       | _ => True
       end) Definition_ ->
  appends (writeFootnoteLink wn Name Definition_).
Proof.
  unfold writeFootnoteLink.
  destruct Definition_ as [definition|]; cbn [onOption];
    [|intros _; appends_auto].
  destruct (fdChildren definition) as [|first rest];
    [intros _; appends_auto|].
  destruct first; try solve [intros _; appends_auto].
  intros [f H]. appends_auto.
Qed.

Lemma writeRegularLink_appends URL Description AutoLink :
  onOption (fun ns => appends (wn ns)) Description ->
  appends (writeRegularLink wn URL Description AutoLink).
Proof.
  unfold writeRegularLink.
  destruct AutoLink; [intros _; appends_auto|].
  destruct Description as [ns|]; cbn [onOption]; [|intros _; appends_auto].
  intros [f H]. appends_auto.
Qed.

End MethodsAppend.

Lemma appendsDeep_nodes (ns : list Node) :
  Forall appendsDeep ns -> appends (writeNodes ns).
Proof.
  intros H. apply appends_forEach.
  eapply Forall_impl; [exact H|]. now intros n [Hn _].
Qed.

Lemma appendsDeep_columns (columns : list (list Node)) :
  Forall (Forall appendsDeep) columns ->
  Forall (fun ns => appends (writeNodes ns)) columns.
Proof.
  intros H. eapply Forall_impl; [exact H|]. exact appendsDeep_nodes.
Qed.

Lemma appendsDeep_node (n : Node) :
  appendsDeep n -> appends (writeNodes [n]).
Proof. intros H. apply appendsDeep_nodes. now constructor. Qed.

Lemma writeNode_appendsDeep (n : Node) : appendsDeep n.
Proof.
  induction n using Node_nested_ind; (split; [cbn [writeNode]|exact I || idtac]).
  - exists (fun _ _ => Ok EmptyString). intros w. cbn.
    now rewrite WriteString_empty.
  - exists (fun _ _ => Panic (BadNode repr)). reflexivity.
  - apply writeComment_appends.
  - apply writeKeyword_appends.
  - apply writeNodeWithMeta_appends;
      [now apply appendsDeep_node | now apply appendsDeep_columns].
  - apply writeHeadline_appends; now apply appendsDeep_nodes.
  - apply writeBlock_appends; now apply appendsDeep_nodes.
  - apply writeFootnoteDefinition_appends; now apply appendsDeep_nodes.
  - now apply appendsDeep_nodes.
  - apply writeListItem_appends; now apply appendsDeep_nodes.
  - apply writeTable_appends;
      [now apply appendsDeep_node | now apply appendsDeep_nodes].
  - apply writeTableHeader_appends;
      [now apply appendsDeep_columns | now apply appendsDeep_node].
  - apply writeTableColumns_appends. now apply appendsDeep_columns.
  - apply writeTableSeparator_appends.
  - apply writeParagraph_appends; now apply appendsDeep_nodes.
  - eapply Forall_impl; [eassumption|]. now intros c [Hc _].
  - apply writeHorizontalRule_appends.
  - apply writeText_appends.
  - apply writeEmphasis_appends; now apply appendsDeep_nodes.
  - apply writeLineBreak_appends.
  - apply writeExplicitLineBreak_appends.
  - apply writeRegularLink_appends.
    destruct Description as [ns|]; cbn [onOption] in *;
      [now apply appendsDeep_nodes | exact I].
  - apply writeFootnoteLink_appends.
    destruct Definition_ as [[name children inline]|];
      cbn [onOption fdChildren] in *; [|exact I].
    destruct children as [|first rest]; [exact I|].
    destruct first; try exact I.
    match goal with
    | H : Forall _ (Paragraph _ :: _) |- _ =>
        apply Forall_cons_1 in H; destruct H as [[_ Hp] _]
    end.
    now apply appends_forEach.
Qed.

Theorem writeNodes_appends (ns : list Node) : appends (writeNodes ns).
Proof.
  apply appends_forEach, Forall_forall. intros n _.
  apply writeNode_appendsDeep.
Qed.

(** The dispatcher appends the text of the isolated sub-render. *)
Theorem writeNodes_emit (ns : list Node) (w : OrgWriter) :
  writeNodes ns w = emit (render ns w) w.
Proof.
  destruct (writeNodes_appends ns) as [f H]. unfold render.
  rewrite (H (emptyClone w)), (H w). cbn [indent TagsColumn emptyClone].
  destruct (f (indent w) (TagsColumn w)) as [s|p]; reflexivity.
Qed.

Lemma render_WriteString (ns : list Node) (s : string) (w : OrgWriter) :
  render ns (WriteString s w) = render ns w.
Proof. reflexivity. Qed.

Lemma render_emptyClone (ns : list Node) (w : OrgWriter) :
  render ns (emptyClone w) = render ns w.
Proof. reflexivity. Qed.

(** ** The dispatcher on sequences *)

Lemma bind_Ok_r {A : Type} (r : result A) : bind r Ok = r.
Proof. now destruct r. Qed.

Lemma forEach_app {A : Type} (body : A -> Method) (xs ys : list A) (w : OrgWriter) :
  forEach body (xs ++ ys)%list w = (let! w := forEach body xs w in forEach body ys w).
Proof.
  revert w. induction xs as [|x xs IH]; intros w; [reflexivity|].
  cbn [forEach bind app]. destruct (body x w) as [w'|p]; [|reflexivity].
  cbn [bind]. apply IH.
Qed.

Lemma writeNodes_app (ns ms : list Node) (w : OrgWriter) :
  writeNodes (ns ++ ms)%list w = (let! w := writeNodes ns w in writeNodes ms w).
Proof. apply forEach_app. Qed.

Lemma writeNodes_cons (n : Node) (ns : list Node) (w : OrgWriter) :
  writeNodes (n :: ns) w = (let! w := writeNode n w in writeNodes ns w).
Proof. reflexivity. Qed.

Lemma writeNodes_singleton (n : Node) (w : OrgWriter) :
  writeNodes [n] w = writeNode n w.
Proof. rewrite writeNodes_cons. apply bind_Ok_r. Qed.

(** C7: in every node sequence handed to the dispatcher, a value outside the
    twenty known variants aborts the render with the diagnostic that carries
    the offending value, as soon as the nodes before it are written (a panic
    of an earlier node comes first); such a sequence never renders to a
    result, so the value is not skipped.  A nil node writes nothing and does
    not abort: the sequence renders as the sequence without it. *)
Theorem C7_dispatch_foreign_and_nil
    (before_ after_ : list Node) (repr : string) (w : OrgWriter) :
  writeNodes (Foreign repr :: after_) w = Panic (BadNode repr)
  /\ writeNodes (before_ ++ Foreign repr :: after_)%list w
     = (let! w' := writeNodes before_ w in Panic (BadNode repr))
  /\ (forall w', writeNodes (before_ ++ Foreign repr :: after_)%list w <> Ok w')
  /\ writeNodes [Nil] w = Ok w
  /\ writeNodes (before_ ++ Nil :: after_)%list w
     = writeNodes (before_ ++ after_)%list w.
Proof.
  assert (Hforeign : writeNodes (before_ ++ Foreign repr :: after_)%list w
                     = (let! w' := writeNodes before_ w in Panic (BadNode repr))).
  { rewrite writeNodes_app. now destruct (writeNodes before_ w). }
  repeat split.
  - exact Hforeign.
  - intros w'. rewrite Hforeign. now destruct (writeNodes before_ w).
  - rewrite !writeNodes_app. now destruct (writeNodes before_ w).
Qed.

(** ** Emphasis *)

Lemma emphasisOrgBorders_pair (Kind : string) (borders : list string) :
  emphasisOrgBorders !! Kind = Some borders ->
  Kind ∈ emphasisKinds /\ exists left right, borders = [left; right].
Proof.
  intros H. apply elem_of_list_to_map_2 in H.
  repeat match goal with
         | H : _ ∈ _ :: _ |- _ => apply elem_of_cons in H; destruct H as [H|H]
         | H : _ ∈ [] |- _ => now apply elem_of_nil in H
         | H : (_, _) = (_, _) |- _ => inversion H; subst; clear H
         end;
    (split; [unfold emphasisKinds; set_solver | eauto]).
Qed.

(** C8: an emphasis node whose kind is a key of the border table renders as
    the left border of that kind, the rendering of its content, and the right
    border (a panic inside the content is the panic of the node); an emphasis
    node of any other kind aborts the render with the diagnostic that carries
    the node, also when it stands in a sequence after nodes that rendered. *)
Theorem C8_emphasis_borders
    (Kind : string) (Content : list Node) (w : OrgWriter) :
  match emphasisOrgBorders !! Kind with
  | Some borders =>
      Kind ∈ emphasisKinds
      /\ exists left right,
           borders = [left; right]
           /\ writeNodes [Emphasis Kind Content] w
              = emit (let! content := render Content w in
                      Ok (left ++ content ++ right)) w
  | None =>
      (Kind ∉ emphasisKinds)
      /\ writeNodes [Emphasis Kind Content] w = Panic (BadEmphasis Kind Content)
      /\ forall (before_ after_ : list Node) (w0 w1 : OrgWriter),
           writeNodes before_ w0 = Ok w1 ->
           writeNodes (before_ ++ Emphasis Kind Content :: after_)%list w0
           = Panic (BadEmphasis Kind Content)
  end.
Proof.
  assert (Hone : forall w, writeNodes [Emphasis Kind Content] w
                           = writeEmphasis writeNodes Kind Content w).
  { intros w0. now rewrite writeNodes_singleton. }
  destruct (emphasisOrgBorders !! Kind) as [borders|] eqn:E.
  - destruct (emphasisOrgBorders_pair _ _ E) as [Hin (left & right & ->)].
    split; [exact Hin|]. exists left, right. split; [reflexivity|].
    rewrite Hone. unfold writeEmphasis. rewrite E. cbn [index lookup list_lookup bind].
    rewrite writeNodes_emit. cbn [indent TagsColumn WriteString].
    rewrite render_WriteString.
    destruct (render Content w) as [content|p]; [|reflexivity].
    cbn [emit bind]. now rewrite !WriteString_WriteString.
  - assert (Hpanic : forall w, writeNodes [Emphasis Kind Content] w
                               = Panic (BadEmphasis Kind Content)).
    { intros w0. rewrite Hone. unfold writeEmphasis. now rewrite E. }
    split; [|split].
    + intros Hin. unfold emphasisKinds in Hin.
      repeat (apply elem_of_cons in Hin; destruct Hin as [->|Hin];
              [now vm_compute in E|]).
      now apply elem_of_nil in Hin.
    + apply Hpanic.
    + intros before_ after_ w0 w1 Hbefore.
      rewrite writeNodes_app, Hbefore. cbn [bind].
      rewrite writeNodes_cons.
      specialize (Hpanic w1). rewrite writeNodes_singleton in Hpanic.
      now rewrite Hpanic.
Qed.

(** ** Footnotes *)

Lemma writeFootnoteDefinition_emit (f : FootnoteDefinitionT) (w : OrgWriter) :
  writeFootnoteDefinition writeNodes f w
  = emit (let! children := render (fdChildren f) w in
          Ok ("[fn:" ++ fdName f ++ "]"
              ++ definitionSeparator (fdChildren f) ++ children)) w.
Proof.
  unfold writeFootnoteDefinition, definitionSeparator.
  rewrite writeNodes_emit.
  destruct (fdChildren f) as [|first rest];
    [|destruct (isEmptyLineParagraph first)]; cbn [negb];
    rewrite ?render_WriteString;
    (destruct (render _ w) as [children|p]; [|reflexivity]);
    cbn [emit bind]; rewrite !WriteString_WriteString, ?append_assoc;
    reflexivity.
Qed.

(** C9: a footnote definition without children renders as [[fn:name]]
    followed by one space, and nothing else.  In general the definition
    renders as [[fn:name]], the separator, and its children; the separator
    is the empty string exactly when there is a first child and it is the
    empty-line paragraph, and one space otherwise. *)
Theorem C9_footnote_definition_separator
    (f : FootnoteDefinitionT) (w : OrgWriter) :
  (fdChildren f = [] ->
   writeNodes [FootnoteDefinition f] w
   = Ok (WriteString ("[fn:" ++ fdName f ++ "] ") w))
  /\ writeNodes [FootnoteDefinition f] w
     = emit (let! children := render (fdChildren f) w in
             Ok ("[fn:" ++ fdName f ++ "]"
                 ++ definitionSeparator (fdChildren f) ++ children)) w
  /\ (definitionSeparator (fdChildren f) = EmptyString
      \/ definitionSeparator (fdChildren f) = " ")
  /\ (definitionSeparator (fdChildren f) = EmptyString <->
      exists first rest,
        fdChildren f = first :: rest /\ isEmptyLineParagraph first = true).
Proof.
  rewrite writeNodes_singleton. cbn [writeNode].
  rewrite writeFootnoteDefinition_emit.
  split; [|split; [reflexivity|split]].
  - intros ->. reflexivity.
  - unfold definitionSeparator.
    destruct (fdChildren f) as [|first rest]; [now right|].
    destruct (isEmptyLineParagraph first); [now left|now right].
  - unfold definitionSeparator.
    destruct (fdChildren f) as [|first rest].
    + split; [discriminate|]. now intros (? & ? & ? & _).
    + destruct (isEmptyLineParagraph first) eqn:E.
      * split; [|reflexivity]. intros _. now exists first, rest.
      * split; [discriminate|].
        intros (first' & rest' & Heq & Hempty). congruence.
Qed.

Lemma writeFootnotes_loop (definitions : list FootnoteDefinitionT) (w : OrgWriter) :
  forEach
    (fun definition w =>
       if negb (fdInline definition)
       then writeNodes [FootnoteDefinition definition] w
       else Ok w)
    definitions w
  = writeNodes
      (map FootnoteDefinition (filter (fun d => negb (fdInline d)) definitions)) w.
Proof.
  revert w. induction definitions as [|d ds IH]; intros w; [reflexivity|].
  cbn [forEach filter]. rewrite filter_cons.
  destruct (decide (negb (fdInline d))) as [Hd|Hd].
  - apply Is_true_true in Hd. rewrite Hd.
    cbn [map]. rewrite writeNodes_singleton, writeNodes_cons.
    destruct (writeNode (FootnoteDefinition d) w) as [w'|p]; [|reflexivity].
    cbn [bind]. apply IH.
  - apply Is_true_false in Hd. rewrite Hd. cbn [bind]. apply IH.
Qed.

(** C3: the post-pass writes nothing when the footnote table holds no
    definition.  Otherwise it writes the headline line of level 1 with the
    title of the table, and then dispatches, in table order, the definitions
    that are not flagged inline, and only those. *)
Theorem C3_footnote_section (d : Document) (w : OrgWriter) :
  let fs := DocFootnotes d in
  (size (Definitions fs) = 0%nat -> after d w = Ok w)
  /\ (size (Definitions fs) <> 0%nat ->
      after d w
      = writeNodes (sectionDefinitions fs)
          (WriteString ("* " ++ Title fs ++ newline) w)
      /\ after d w
         = emit (let! body := render (sectionDefinitions fs) w in
                 Ok ("* " ++ Title fs ++ newline ++ body)) w)
  /\ (forall definition,
        FootnoteDefinition definition ∈ sectionDefinitions fs <->
        definition ∈ Ordered fs /\ fdInline definition = false)
  /\ sectionDefinitions fs
     = map FootnoteDefinition
         (filter (fun definition => negb (fdInline definition)) (Ordered fs)).
Proof.
  intros fs. unfold after, writeFootnotes. fold fs.
  split; [|split; [|split]].
  - intros ->. reflexivity.
  - intros Hsize. apply Nat.eqb_neq in Hsize. rewrite Hsize.
    rewrite writeFootnotes_loop. fold (sectionDefinitions fs).
    split; [reflexivity|].
    rewrite writeNodes_emit, render_WriteString.
    destruct (render (sectionDefinitions fs) w) as [body|p]; [|reflexivity].
    cbn [emit bind]. now rewrite WriteString_WriteString, !append_assoc.
  - intros definition. unfold sectionDefinitions.
    rewrite list_elem_of_fmap. split.
    + intros (d' & Heq & Hin). injection Heq as <-.
      apply list_elem_of_filter in Hin as [Hflag Hin].
      split; [exact Hin|]. now destruct (fdInline definition).
    + intros [Hin Hflag]. exists definition. split; [reflexivity|].
      apply list_elem_of_filter. split; [|exact Hin]. now rewrite Hflag.
  - reflexivity.
Qed.

(** ** Prefixes and repetition *)

Lemma Repeat_fits (s : string) (count : Z) :
  (0 <= count)%Z -> (len s * count <= maxInt)%Z ->
  strings.Repeat s count = Ok (repeated s (Z.to_nat count)).
Proof.
  intros H Hfits. unfold strings.Repeat.
  destruct (count <? 0)%Z eqn:E; [apply Z.ltb_lt in E; lia|].
  destruct (maxInt <? len s * count)%Z eqn:E'; [apply Z.ltb_lt in E'; lia|].
  now rewrite andb_false_r.
Qed.

Lemma Repeat_returns (s : string) (count : Z) (text : string) :
  strings.Repeat s count = Ok text ->
  (0 <= count)%Z /\ text = repeated s (Z.to_nat count).
Proof.
  unfold strings.Repeat.
  destruct (count <? 0)%Z eqn:E; [discriminate|]. apply Z.ltb_ge in E.
  destruct (_ && _); [discriminate|]. intros [= <-]. now split.
Qed.

Lemma Repeat_negative (s : string) (count : Z) :
  (count < 0)%Z -> strings.Repeat s count = Panic NegativeRepeatCount.
Proof.
  intros H. unfold strings.Repeat. apply Z.ltb_lt in H. now rewrite H.
Qed.

Lemma Repeat_overflow (s : string) (count : Z) :
  (0 <= count <= maxInt)%Z -> (maxInt < len s * count)%Z ->
  strings.Repeat s count = Panic RepeatOverflow.
Proof.
  intros [H0 H1] H. unfold strings.Repeat.
  destruct (count <? 0)%Z eqn:E; [apply Z.ltb_lt in E; lia|].
  apply Z.leb_le in H1. apply Z.ltb_lt in H. now rewrite H1, H.
Qed.

(** One byte repeated never overflows. *)
Lemma Repeat_spaces_count (count : Z) :
  (0 <= count)%Z -> strings.Repeat " " count = Ok (spaces (Z.to_nat count)).
Proof.
  intros H. unfold strings.Repeat.
  destruct (count <? 0)%Z eqn:E; [apply Z.ltb_lt in E; lia|].
  change (len " ") with 1%Z. rewrite Z.mul_1_l.
  destruct (count <=? maxInt)%Z eqn:E1; [|reflexivity].
  destruct (maxInt <? count)%Z eqn:E2; [|reflexivity].
  apply Z.leb_le in E1. apply Z.ltb_lt in E2. lia.
Qed.

Lemma Repeat_spaces (n : nat) :
  strings.Repeat " " (Z.of_nat n) = Ok (spaces n).
Proof. rewrite Repeat_spaces_count by lia. now rewrite Nat2Z.id. Qed.

Lemma len_spaces (n : nat) : len (spaces n) = Z.of_nat n.
Proof.
  induction n as [|n IH]; [reflexivity|].
  change (spaces (S n)) with (" " ++ spaces n).
  rewrite len_append, IH. unfold len. cbn [String.length]. lia.
Qed.

Lemma HasPrefix_append (prefix rest : string) :
  strings.HasPrefix (prefix ++ rest) prefix = true.
Proof.
  induction prefix as [|c prefix IH]; [reflexivity|].
  rewrite append_cons. cbn [strings.HasPrefix].
  now rewrite Ascii.eqb_refl, IH.
Qed.

Lemma HasPrefix_true (s prefix : string) :
  strings.HasPrefix s prefix = true <-> exists rest, s = prefix ++ rest.
Proof.
  split; [|intros [rest ->]; apply HasPrefix_append].
  revert s. induction prefix as [|c prefix IH]; intros s H.
  - now exists s.
  - destruct s as [|c' s]; [discriminate|]. cbn [strings.HasPrefix] in H.
    apply andb_true_iff in H as [Hc Hs]. apply Ascii.eqb_eq in Hc as ->.
    destruct (IH _ Hs) as [rest ->]. now exists rest.
Qed.

Lemma HasPrefix_false (s prefix : string) :
  strings.HasPrefix s prefix = false <-> ~ exists rest, s = prefix ++ rest.
Proof.
  rewrite <- HasPrefix_true. now destruct (strings.HasPrefix s prefix).
Qed.

Lemma sliceFrom_append (prefix rest : string) :
  strings.sliceFrom (String.length prefix) (prefix ++ rest) = rest.
Proof. induction prefix as [|c prefix IH]; [now destruct rest|exact IH]. Qed.

Lemma TrimPrefix_append (prefix rest : string) :
  strings.TrimPrefix (prefix ++ rest) prefix = rest.
Proof.
  unfold strings.TrimPrefix. now rewrite HasPrefix_append, sliceFrom_append.
Qed.

Lemma TrimPrefix_absent (s prefix : string) :
  strings.HasPrefix s prefix = false -> strings.TrimPrefix s prefix = s.
Proof. intros H. unfold strings.TrimPrefix. now rewrite H. Qed.

(** ** List items *)

Lemma writeListItem_emit (Bullet : string) (Children : list Node) (w : OrgWriter) :
  writeListItem writeNodes Bullet Children w
  = emit (let! body := render Children (withIndent (itemIndent Bullet w) w) in
          Ok (indent w ++ Bullet ++ " "
              ++ strings.TrimPrefix body (itemIndent Bullet w))) w.
Proof.
  unfold writeListItem, itemIndent.
  replace (len Bullet + 1)%Z with (Z.of_nat (S (String.length Bullet)))
    by (unfold len; lia).
  rewrite Repeat_spaces. cbn [bind]. rewrite writeNodes_emit.
  change (render Children
            (withIndent (indent (WriteString (indent w ++ Bullet ++ " ") w)
                         ++ spaces (S (String.length Bullet)))
               (emptyClone (WriteString (indent w ++ Bullet ++ " ") w))))
    with (render Children
            (withIndent (indent w ++ spaces (S (String.length Bullet))) w)).
  destruct (render Children _) as [body|p]; [|reflexivity].
  cbn [emit bind indent withIndent emptyClone WriteString String_ stringBuilder].
  rewrite append_nil_l. unfold WriteString. cbn [stringBuilder TagsColumn indent].
  now rewrite !append_assoc.
Qed.

(** C5: a list item writes the indentation, the bullet and one space into
    the current builder, renders its children in an isolated writer whose
    indentation is the current one extended by [len(bullet)+1] spaces, and
    appends that text with one leading occurrence of the extended
    indentation trimmed.  A text that starts with the extended indentation
    loses exactly that occurrence.  The item with bullet [-] and a paragraph
    of two lines [a], [b] renders as [- a] and, on the next line, [b] behind
    two spaces. *)
Theorem C5_list_item_indentation
    (Bullet : string) (Children : list Node) (w : OrgWriter) :
  writeNodes [ListItem Bullet Children] w
  = emit (let! body := render Children (withIndent (itemIndent Bullet w) w) in
          Ok (indent w ++ Bullet ++ " "
              ++ strings.TrimPrefix body (itemIndent Bullet w))) w
  /\ itemIndent Bullet w = indent w ++ spaces (Z.to_nat (len Bullet + 1))
  /\ len (itemIndent Bullet w) = (len (indent w) + (len Bullet + 1))%Z
  /\ (forall rest,
        strings.TrimPrefix (itemIndent Bullet w ++ rest) (itemIndent Bullet w)
        = rest)
  /\ writeNodes [ListItem "-" [Paragraph [Text "a"; LineBreak 1; Text "b"]]]
       NewOrgWriter
     = Ok (WriteString ("- a" ++ newline ++ "  b" ++ newline) NewOrgWriter).
Proof.
  split; [|split; [|split; [|split]]].
  - rewrite writeNodes_singleton. apply writeListItem_emit.
  - unfold itemIndent, len. do 2 f_equal. lia.
  - unfold itemIndent. rewrite len_append, len_spaces. unfold len. lia.
  - intros rest. apply TrimPrefix_append.
  - reflexivity.
Qed.

(** C10: the trimming of a list item is conditional.  When the text of the
    isolated sub-render does not start with the extended indentation it is
    appended unchanged; when it does, what follows the first occurrence is
    appended, so a second occurrence right behind the first one stays. *)
Theorem C10_list_item_trim_conditional
    (Bullet : string) (Children : list Node) (w : OrgWriter) (body : string) :
  render Children (withIndent (itemIndent Bullet w) w) = Ok body ->
  (strings.HasPrefix body (itemIndent Bullet w) = false ->
   writeNodes [ListItem Bullet Children] w
   = Ok (WriteString (indent w ++ Bullet ++ " " ++ body) w))
  /\ (forall rest,
        body = itemIndent Bullet w ++ rest ->
        writeNodes [ListItem Bullet Children] w
        = Ok (WriteString (indent w ++ Bullet ++ " " ++ rest) w))
  /\ (forall rest,
        body = itemIndent Bullet w ++ itemIndent Bullet w ++ rest ->
        writeNodes [ListItem Bullet Children] w
        = Ok (WriteString
                (indent w ++ Bullet ++ " " ++ itemIndent Bullet w ++ rest) w))
  /\ (strings.HasPrefix body (itemIndent Bullet w) = false <->
      ~ exists rest, body = itemIndent Bullet w ++ rest).
Proof.
  intros Hbody.
  assert (Hitem : writeNodes [ListItem Bullet Children] w
                  = Ok (WriteString
                          (indent w ++ Bullet ++ " "
                           ++ strings.TrimPrefix body (itemIndent Bullet w)) w)).
  { rewrite writeNodes_singleton. cbn [writeNode].
    now rewrite writeListItem_emit, Hbody. }
  assert (Hstrip : forall rest,
             body = itemIndent Bullet w ++ rest ->
             writeNodes [ListItem Bullet Children] w
             = Ok (WriteString (indent w ++ Bullet ++ " " ++ rest) w)).
  { intros rest ->. now rewrite Hitem, TrimPrefix_append. }
  split; [|split; [|split]].
  - intros Habsent. now rewrite Hitem, TrimPrefix_absent.
  - exact Hstrip.
  - intros rest Heq. exact (Hstrip _ Heq).
  - apply HasPrefix_false.
Qed.

(** ** Tables *)

Lemma renderColumns_WriteString (columns : list (list Node)) (s : string) (w : OrgWriter) :
  renderColumns columns (WriteString s w) = renderColumns columns w.
Proof.
  induction columns as [|columnNodes rest IH]; [reflexivity|].
  cbn [renderColumns]. now rewrite IH, render_WriteString.
Qed.

Lemma renderColumns_length (columns : list (list Node)) (w : OrgWriter) (cells : list string) :
  renderColumns columns w = Ok cells -> length cells = length columns.
Proof.
  revert cells. induction columns as [|columnNodes rest IH]; intros cells H.
  - now injection H as <-.
  - cbn [renderColumns] in H.
    destruct (render columnNodes w) as [cell|]; [|discriminate].
    destruct (renderColumns rest w) as [cells'|]; [|discriminate].
    injection H as <-. cbn [length]. now rewrite (IH cells').
Qed.

Lemma Join_cons (e : string) (rest : list string) (sep : string) :
  strings.Join (e :: rest) sep
  = match rest with
    | [] => e
    | _ :: _ => e ++ sep ++ strings.Join rest sep
    end.
Proof. now destruct rest. Qed.

Lemma writeTableColumns_loop (columns : list (list Node)) :
  forall (last i : Z) (w : OrgWriter),
    (i + Z.of_nat (length columns) - 1)%Z = last ->
    forEachFrom
      (fun i columnNodes w =>
         let! w := writeNodes columnNodes w in
         let w := WriteString " |" w in
         Ok (if (i <? last)%Z then WriteString " " w else w))
      i columns w
    = emit (let! cells := renderColumns columns w in
            Ok (strings.Join (map (fun cell => cell ++ " |") cells) " ")) w.
Proof.
  induction columns as [|columnNodes rest IH]; intros last i w Hlast.
  - cbn. now rewrite WriteString_empty.
  - cbn [forEachFrom renderColumns]. rewrite writeNodes_emit.
    destruct (render columnNodes w) as [cell|p]; [|reflexivity].
    cbn [emit bind].
    destruct rest as [|next rest].
    + cbn [length] in Hlast.
      replace (i <? last)%Z with false by (symmetry; apply Z.ltb_ge; lia).
      cbn. now rewrite WriteString_WriteString.
    + replace (i <? last)%Z with true
        by (symmetry; apply Z.ltb_lt; cbn [length] in Hlast; lia).
      rewrite (IH last) by (cbn [length] in *; lia).
      rewrite !WriteString_WriteString, renderColumns_WriteString.
      destruct (renderColumns (next :: rest) w) as [cells|p] eqn:E;
        [|reflexivity].
      cbn [emit bind map]. rewrite WriteString_WriteString, Join_cons.
      apply renderColumns_length in E.
      destruct cells as [|cell' cells]; [discriminate|].
      cbn [map]. now rewrite !append_assoc.
Qed.

Lemma writeTableColumns_emit (columns : list (list Node)) (w : OrgWriter) :
  writeTableColumns writeNodes columns w
  = emit (let! cells := renderColumns columns w in
          Ok (indent w ++ "| "
              ++ strings.Join (map (fun cell => cell ++ " |") cells) " "
              ++ newline)) w.
Proof.
  unfold writeTableColumns.
  rewrite (writeTableColumns_loop columns _ 0%Z) by (cbn [indent]; lia).
  rewrite renderColumns_WriteString.
  destruct (renderColumns columns w) as [cells|p]; [|reflexivity].
  cbn [emit bind]. now rewrite !WriteString_WriteString, !append_assoc.
Qed.

(** C6: the columns of a table header or row render as the indentation and
    [| ], then each cell followed by [ |], with one space between two
    consecutive cells and none behind the last, then a newline; a header
    goes on with its separator node.  A separator renders as the
    indentation, its stored content and a newline: nothing is computed from
    the cells and no cell is padded. *)
Theorem C6_table_columns_and_separator
    (Columns : list (list Node)) (Separator : Node) (Content : string)
    (w : OrgWriter) :
  let line :=
    emit (let! cells := renderColumns Columns w in
          Ok (indent w ++ "| "
              ++ strings.Join (map (fun cell => cell ++ " |") cells) " "
              ++ newline)) in
  writeNodes [TableRow Columns] w = line w
  /\ writeNodes [TableHeader Columns Separator] w
     = (let! w' := line w in writeNodes [Separator] w')
  /\ writeNodes [TableSeparator Content] w
     = Ok (WriteString (indent w ++ Content ++ newline) w)
  /\ writeNodes [TableRow [[Text "a"]; [Text "bb"]]] NewOrgWriter
     = Ok (WriteString ("| a | bb |" ++ newline) NewOrgWriter).
Proof.
  intros line. subst line.
  split; [|split; [|split]].
  - rewrite writeNodes_singleton. apply writeTableColumns_emit.
  - rewrite writeNodes_singleton. cbn [writeNode]. unfold writeTableHeader.
    now rewrite writeTableColumns_emit.
  - now rewrite writeNodes_singleton.
  - reflexivity.
Qed.

(** ** Raw blocks *)

Lemma Split_cons (s : string) (sep : ascii) :
  exists piece pieces, strings.Split s sep = piece :: pieces.
Proof.
  destruct s as [|c s]; [now eexists _, _|].
  cbn [strings.Split]. destruct (Ascii.eqb c sep); [now eexists _, _|].
  destruct (strings.Split s sep); now eexists _, _.
Qed.

Lemma Join_Split (s : string) (sep : ascii) :
  strings.Join (strings.Split s sep) (String sep EmptyString) = s.
Proof.
  induction s as [|c s IH]; [reflexivity|].
  cbn [strings.Split].
  destruct (Split_cons s sep) as (piece & pieces & E). rewrite E in *.
  destruct (Ascii.eqb c sep) eqn:Hc.
  - apply Ascii.eqb_eq in Hc as ->. rewrite Join_cons, IH. reflexivity.
  - rewrite Join_cons. rewrite Join_cons in IH.
    destruct pieces; [now rewrite IH|].
    now rewrite append_cons, IH.
Qed.

Lemma linesText_Join (lines : list string) :
  lines <> [] ->
  linesText EmptyString lines = strings.Join lines newline ++ newline.
Proof.
  induction lines as [|line lines IH]; [congruence|]. intros _.
  cbn [linesText fold_right]. fold (linesText EmptyString lines).
  rewrite Join_cons, append_nil_l.
  destruct lines as [|next lines]; [apply append_nil_r|].
  rewrite IH by congruence. now rewrite !append_assoc.
Qed.

Lemma Split_pieces (s : string) (sep : ascii) :
  Forall (fun piece => countByte sep piece = 0%nat) (strings.Split s sep).
Proof.
  induction s as [|c s IH]; [now repeat constructor|].
  cbn [strings.Split]. destruct (Ascii.eqb c sep) eqn:E.
  - now constructor.
  - destruct (strings.Split s sep) as [|piece pieces].
    + constructor; [|constructor]. cbn [countByte]. now rewrite E.
    + apply Forall_cons_1 in IH as [Hpiece Hpieces].
      constructor; [|exact Hpieces]. cbn [countByte]. now rewrite E.
Qed.

Lemma Split_length (s : string) (sep : ascii) :
  length (strings.Split s sep) = S (countByte sep s).
Proof.
  induction s as [|c s IH]; [reflexivity|].
  cbn [strings.Split countByte]. destruct (Ascii.eqb c sep).
  - cbn [length]. now rewrite IH.
  - destruct (strings.Split s sep) as [|piece pieces]; [discriminate|].
    exact IH.
Qed.

Lemma Split_whole (piece : string) (sep : ascii) :
  countByte sep piece = 0%nat -> strings.Split piece sep = [piece].
Proof.
  induction piece as [|c piece IH]; [reflexivity|].
  cbn [countByte strings.Split]. destruct (Ascii.eqb c sep); [discriminate|].
  intros H. now rewrite (IH H).
Qed.

Lemma Split_piece (piece rest : string) (sep : ascii) :
  countByte sep piece = 0%nat ->
  strings.Split (piece ++ String sep rest) sep = piece :: strings.Split rest sep.
Proof.
  induction piece as [|c piece IH].
  - intros _. rewrite append_nil_l. cbn [strings.Split].
    now rewrite Ascii.eqb_refl.
  - cbn [countByte]. rewrite append_cons. cbn [strings.Split].
    destruct (Ascii.eqb c sep); [discriminate|].
    intros H. now rewrite (IH H).
Qed.

(** The pieces are the only way to cut [s] at its separators. *)
Lemma Split_Join (pieces : list string) (sep : ascii) :
  pieces <> [] ->
  Forall (fun piece => countByte sep piece = 0%nat) pieces ->
  strings.Split (strings.Join pieces (String sep EmptyString)) sep = pieces.
Proof.
  induction pieces as [|piece pieces IH]; [congruence|]. intros _ H.
  apply Forall_cons_1 in H as [Hpiece Hpieces]. rewrite Join_cons.
  destruct pieces as [|next pieces]; [now apply Split_whole|].
  rewrite append_cons, append_nil_l, (Split_piece _ _ _ Hpiece).
  rewrite IH by (congruence || exact Hpieces). reflexivity.
Qed.

(** C4: a block of a raw kind renders its opening line (the indentation,
    [#+BEGIN_], the name, the parameters joined by spaces behind one space
    when there are any, a newline), then every line of the content of its
    first child, a text, behind the indentation and before a newline, then
    the closing line.  The children are not dispatched: the lines are the
    pieces of the content between its newlines, whatever they spell.  No
    line holds a newline, there is one line more than the content has
    newlines, joined by newlines the lines are the content again, and they
    are the only such pieces; without indentation the body is the content
    and a newline. *)
Theorem C4_raw_block_verbatim
    (Name : string) (Parameters : list string) (content : string)
    (others : list Node) (w : OrgWriter) :
  isRawTextBlock Name = true ->
  let lines := strings.Split content (ascii_of_nat 10) in
  writeNodes [Block Name Parameters (Text content :: others)] w
  = Ok (WriteString
          ((indent w ++ "#+BEGIN_" ++ Name
            ++ (if Nat.eqb (length Parameters) 0 then EmptyString
                else " " ++ strings.Join Parameters " ")
            ++ newline)
           ++ linesText (indent w) lines
           ++ (indent w ++ "#+END_" ++ Name ++ newline)) w)
  /\ linesText (indent w) lines
     = fold_right (fun line text => (indent w ++ line ++ newline) ++ text)
         EmptyString lines
  /\ strings.Join lines newline = content
  /\ (indent w = EmptyString -> linesText (indent w) lines = content ++ newline)
  /\ Forall (fun line => countByte (ascii_of_nat 10) line = 0%nat) lines
  /\ length lines = S (countByte (ascii_of_nat 10) content)
  /\ (forall pieces,
        pieces <> [] ->
        Forall (fun piece => countByte (ascii_of_nat 10) piece = 0%nat) pieces ->
        strings.Join pieces newline = content ->
        pieces = lines).
Proof.
  intros Hraw lines.
  split; [|split; [reflexivity|split; [|split; [|split; [|split]]]]].
  - rewrite writeNodes_singleton. cbn [writeNode]. unfold writeBlock.
    rewrite Hraw. cbn [nodeAt lookup list_lookup assertText bind].
    rewrite writeLines_text. fold lines.
    destruct (Nat.eqb (length Parameters) 0); cbn [negb bind indent];
      now rewrite !WriteString_WriteString, !append_assoc.
  - apply Join_Split.
  - intros ->. subst lines. rewrite linesText_Join.
    + now rewrite (Join_Split content).
    + destruct (Split_cons content (ascii_of_nat 10)) as (? & ? & ->).
      congruence.
  - apply Split_pieces.
  - apply Split_length.
  - intros pieces Hne Hfree <-. subst lines. symmetry.
    now apply Split_Join.
Qed.

(** ** Headlines *)

Lemma wrapInt_id (z : Z) : (minInt <= z <= maxInt)%Z -> wrapInt z = z.
Proof.
  unfold minInt, maxInt, wrapInt. intros H.
  rewrite Z.mod_small by lia. lia.
Qed.

Lemma intSub_intSub (a b c : Z) : intSub (intSub a b) c = wrapInt (a - b - c).
Proof.
  unfold intSub, wrapInt. f_equal.
  replace ((a - b + 2 ^ 63) mod 2 ^ 64 - 2 ^ 63 - c + 2 ^ 63)%Z
    with ((a - b + 2 ^ 63) mod 2 ^ 64 - c)%Z by lia.
  rewrite Zminus_mod_idemp_l. f_equal. lia.
Qed.

Lemma spaces_succ (n : nat) : " " ++ spaces n = spaces (S n).
Proof. reflexivity. Qed.

Lemma headline_isolated (stars Status Priority : string) (Title : list Node)
    (w : OrgWriter) :
  (let tmp := WriteString stars (emptyClone w) in
   let tmp :=
     if String.eqb Status EmptyString then tmp
     else WriteString (" " ++ Status) tmp in
   let tmp :=
     if String.eqb Priority EmptyString then tmp
     else WriteString (" [#" ++ Priority ++ "]") tmp in
   let tmp := WriteString " " tmp in
   let! tmp := writeNodes Title tmp in Ok (String_ tmp))
  = (let! title := render Title w in
     Ok (headlineTitle stars Status Priority title)).
Proof.
  cbv zeta. rewrite writeNodes_emit. unfold headlineTitle.
  destruct (String.eqb Status EmptyString), (String.eqb Priority EmptyString);
    rewrite !render_WriteString, render_emptyClone;
    (destruct (render Title w) as [title|p]; [|reflexivity]);
    cbn [emit bind String_ WriteString emptyClone stringBuilder];
    now rewrite ?append_nil_l, ?append_assoc.
Qed.

(** A headline with tags, as the code computes it: [n] is the machine
    subtraction, and the padding is what [strings.Repeat] makes of it. *)
Lemma writeHeadline_tagged
    (Lvl : Z) (Status Priority : string) (Title : list Node)
    (Tags : list string) (Children : list Node) (w : OrgWriter)
    (stars title : string) :
  Tags <> [] ->
  strings.Repeat "*" Lvl = Ok stars ->
  render Title w = Ok title ->
  let title_line := headlineTitle stars Status Priority title in
  let tag_string := ":" ++ strings.Join Tags ":" ++ ":" in
  let n := wrapInt (TagsColumn w - len tag_string - len title_line - 1) in
  writeNodes [Headline Lvl Status Priority Title Tags Children] w
  = (let! line :=
       if (n >? 0)%Z
       then let! padding := strings.Repeat " " n in
            Ok (title_line ++ " " ++ padding ++ tag_string)
       else Ok (title_line ++ " " ++ tag_string) in
     writeNodes Children
       (WriteString
          (line ++ newline
           ++ (if Nat.eqb (length Children) 0 then EmptyString else indent w))
          w)).
Proof.
  intros Htags Hstars Htitle title_line tag_string n.
  rewrite writeNodes_singleton. cbn [writeNode]. fold writeNodes.
  unfold writeHeadline. rewrite Hstars. cbn [bind].
  pose proof (headline_isolated stars Status Priority Title w) as Hiso.
  cbv zeta in Hiso. rewrite Htitle in Hiso. cbn [bind] in Hiso.
  fold title_line in Hiso.
  destruct (writeNodes Title _) as [tmp|p]; [|discriminate].
  cbn [bind] in Hiso |- *. injection Hiso as Htmp. rewrite Htmp.
  replace (Nat.eqb (length Tags) 0) with false by (now destruct Tags).
  cbn [negb]. fold tag_string.
  rewrite intSub_intSub, len_append.
  change (len " ") with 1%Z.
  replace (TagsColumn w - len tag_string - (len title_line + 1))%Z
    with (TagsColumn w - len tag_string - len title_line - 1)%Z by lia.
  fold n.
  assert (Hout : forall l,
             (let w := WriteString newline (WriteString l w) in
              let w :=
                if negb (Nat.eqb (length Children) 0)
                then WriteString (indent w) w else w in
              writeNodes Children w)
             = writeNodes Children
                 (WriteString
                    (l ++ newline
                     ++ (if Nat.eqb (length Children) 0 then EmptyString
                         else indent w)) w)).
  { intros l. cbv zeta.
    destruct (Nat.eqb (length Children) 0); cbn [negb indent WriteString];
      f_equal; unfold WriteString; cbn [stringBuilder TagsColumn indent];
      now rewrite ?append_assoc, ?append_nil_r. }
  destruct (n >? 0)%Z.
  - destruct (strings.Repeat " " n) as [padding|p]; [|reflexivity].
    cbn [bind]. etransitivity; [apply Hout|]. now rewrite !append_assoc.
  - cbn [bind]. etransitivity; [apply Hout|]. now rewrite !append_assoc.
Qed.

(** C1, as amended: for a headline with tags, let the title line be the
    text of the isolated writer (stars, status, priority, one space, title),
    the tag string the tags joined by [:] between two [:], and
    [pad = TagsColumn - len(tag string) - len(title line)].  Provided the
    subtraction of the writer, which yields [pad - 1], does not wrap around,
    and the call of [strings.Repeat] for the [pad - 1] spaces returns when
    the writer makes it: when [pad > 0] the headline line is the title
    line, [pad] spaces and the tag string, and it is [TagsColumn] bytes
    long; otherwise it is the title line, one space and the tag string.  A
    newline follows, then the indentation when there are children, then the
    children. *)
Theorem C1_headline_tag_alignment
    (Lvl : Z) (Status Priority : string) (Title : list Node)
    (Tags : list string) (Children : list Node) (w : OrgWriter)
    (stars title : string) :
  Tags <> [] ->
  strings.Repeat "*" Lvl = Ok stars ->
  render Title w = Ok title ->
  let title_line := headlineTitle stars Status Priority title in
  let tag_string := ":" ++ strings.Join Tags ":" ++ ":" in
  let pad := (TagsColumn w - len tag_string - len title_line)%Z in
  (minInt <= pad - 1 <= maxInt)%Z ->
  ((1 < pad)%Z -> exists padding, strings.Repeat " " (pad - 1) = Ok padding) ->
  let line :=
    if (pad >? 0)%Z then title_line ++ spaces (Z.to_nat pad) ++ tag_string
    else title_line ++ " " ++ tag_string in
  writeNodes [Headline Lvl Status Priority Title Tags Children] w
  = writeNodes Children
      (WriteString
         (line ++ newline
          ++ (if Nat.eqb (length Children) 0 then EmptyString else indent w)) w)
  /\ ((pad > 0)%Z -> len line = TagsColumn w).
Proof.
  intros Htags Hstars Htitle title_line tag_string pad Hrange Hpadding line.
  split.
  - rewrite (writeHeadline_tagged Lvl Status Priority Title Tags Children w
               stars title Htags Hstars Htitle).
    cbv zeta. fold title_line tag_string.
    replace (TagsColumn w - len tag_string - len title_line - 1)%Z
      with (pad - 1)%Z by (subst pad; lia).
    rewrite wrapInt_id by exact Hrange.
    destruct (pad - 1 >? 0)%Z eqn:Hn.
    + apply Z.gtb_lt in Hn.
      destruct Hpadding as [padding Hrepeat]; [lia|]. rewrite Hrepeat.
      apply Repeat_returns in Hrepeat as [_ ->].
      cbn [bind]. do 3 f_equal. subst line.
      replace (pad >? 0)%Z with true by (symmetry; apply Z.gtb_lt; lia).
      f_equal. change (repeated " " (Z.to_nat (pad - 1)))
        with (spaces (Z.to_nat (pad - 1))).
      rewrite <- append_assoc, spaces_succ. do 2 f_equal. lia.
    + cbn [bind]. do 3 f_equal. subst line.
      destruct (pad >? 0)%Z eqn:Hpad; [|reflexivity].
      apply Z.gtb_lt in Hpad.
      assert (pad = 1)%Z as -> by (rewrite Z.gtb_ltb in Hn; apply Z.ltb_ge in Hn; lia).
      reflexivity.
  - intros Hpad. subst line.
    replace (pad >? 0)%Z with true by (symmetry; apply Z.gtb_lt; lia).
    rewrite !len_append, len_spaces. subst pad. lia.
Qed.


(** ** Further properties of the dispatcher *)

Lemma render_same_configuration (ns : list Node) (w v : OrgWriter) :
  indent v = indent w -> TagsColumn v = TagsColumn w -> render ns v = render ns w.
Proof. intros Hi Ht. unfold render, emptyClone. now rewrite Hi, Ht. Qed.

Lemma render_nil (w : OrgWriter) : render [] w = Ok EmptyString.
Proof. reflexivity. Qed.

Lemma render_app (ns ms : list Node) (w : OrgWriter) :
  render (ns ++ ms)%list w
  = (let! a := render ns w in let! b := render ms w in Ok (a ++ b)).
Proof.
  unfold render at 1. rewrite writeNodes_app, writeNodes_emit, render_emptyClone.
  destruct (render ns w) as [a|p]; [|reflexivity].
  cbn [emit bind]. rewrite writeNodes_emit, render_WriteString, render_emptyClone.
  destruct (render ms w) as [b|p]; [|reflexivity].
  cbn [emit bind String_ WriteString emptyClone stringBuilder].
  now rewrite append_nil_l.
Qed.

Lemma render_cons (n : Node) (ns : list Node) (w : OrgWriter) :
  render (n :: ns) w
  = (let! a := render [n] w in let! b := render ns w in Ok (a ++ b)).
Proof. exact (render_app [n] ns w). Qed.

Lemma render_singleton_emit (n : Node) (r : result string) (w : OrgWriter) :
  (forall v, indent v = indent w -> TagsColumn v = TagsColumn w ->
             writeNodes [n] v = emit r v) ->
  render [n] w = r.
Proof.
  intros H. unfold render. rewrite (H (emptyClone w)) by reflexivity.
  destruct r as [text|p]; [|reflexivity].
  cbn [emit bind String_ WriteString emptyClone stringBuilder].
  now rewrite append_nil_l.
Qed.

(** X1: the dispatcher only appends.  On two writers with the same
    indentation and tags column a node sequence either panics with the same
    value on both, or appends the same text to each: the text already in the
    builder is neither read nor changed, and the indentation and the tags
    column of the writer come back as they were. *)
Theorem X1_dispatch_appends_only (ns : list Node) (w v : OrgWriter) :
  indent v = indent w -> TagsColumn v = TagsColumn w ->
  writeNodes ns v
  = match render ns w with
    | Ok text =>
        Ok {| TagsColumn := TagsColumn v;
              stringBuilder := stringBuilder v ++ text;
              indent := indent v |}
    | Panic p => Panic p
    end.
Proof.
  intros Hi Ht. rewrite writeNodes_emit.
  rewrite (render_same_configuration ns w v Hi Ht).
  now destruct (render ns w).
Qed.

(** X3: rendering distributes over concatenation.  The text of [ns ++ ms] is
    the text of [ns] followed by the text of [ms]; when [ns] panics, that is
    the panic of the whole and [ms] is not rendered; the empty sequence
    renders as the empty text. *)
Theorem X3_render_concatenates (ns ms : list Node) (w : OrgWriter) :
  render (ns ++ ms)%list w
  = (let! a := render ns w in let! b := render ms w in Ok (a ++ b))
  /\ (forall p, render ns w = Panic p -> render (ns ++ ms)%list w = Panic p)
  /\ render [] w = Ok EmptyString.
Proof.
  split; [apply render_app|split; [|reflexivity]].
  intros p Hp. now rewrite render_app, Hp.
Qed.

(** ** Text and line breaks *)

Lemma repeated_add (s : string) (a b : nat) :
  repeated s (a + b) = repeated s a ++ repeated s b.
Proof.
  induction a as [|a IH]; [reflexivity|].
  change (repeated s (S a + b)) with (s ++ repeated s (a + b)).
  change (repeated s (S a)) with (s ++ repeated s a).
  now rewrite IH, append_assoc.
Qed.

Lemma len_repeated (s : string) (n : nat) :
  len (repeated s n) = (Z.of_nat n * len s)%Z.
Proof.
  induction n as [|n IH]; [reflexivity|].
  change (repeated s (S n)) with (s ++ repeated s n).
  rewrite len_append, IH. lia.
Qed.

(** X4: text nodes are written verbatim and back to back: a sequence of
    text nodes appends the concatenation of their contents, whatever the
    indentation and the tags column, and a paragraph of text nodes appends
    the same followed by one newline. *)
Theorem X4_text_is_verbatim (contents : list string) (w : OrgWriter) :
  writeNodes (map Text contents) w = Ok (WriteString (concatStrings contents) w)
  /\ writeNodes [Paragraph (map Text contents)] w
     = Ok (WriteString (concatStrings contents ++ newline) w).
Proof.
  assert (H : forall w, writeNodes (map Text contents) w
                        = Ok (WriteString (concatStrings contents) w)).
  { clear w. induction contents as [|c contents IH]; intros w.
    - cbn. now rewrite WriteString_empty.
    - cbn [map concatStrings fold_right]. rewrite writeNodes_cons.
      cbn [writeNode writeText bind]. rewrite IH.
      now rewrite WriteString_WriteString. }
  split; [apply H|].
  rewrite writeNodes_singleton. cbn [writeNode]. fold writeNodes.
  unfold writeParagraph. rewrite H. cbn [bind].
  now rewrite WriteString_WriteString.
Qed.

Lemma writeNodes_LineBreak (Count : Z) (w : OrgWriter) :
  writeNodes [LineBreak Count] w
  = emit (strings.Repeat (newline ++ indent w) Count) w.
Proof.
  rewrite writeNodes_singleton. cbn [writeNode]. unfold writeLineBreak.
  now destruct (strings.Repeat (newline ++ indent w) Count).
Qed.

(** A repetition that returns for a count returns for every smaller one. *)
Lemma Repeat_monotone (s : string) (count smaller : Z) (text : string) :
  strings.Repeat s count = Ok text ->
  (0 <= smaller <= count)%Z -> (count <= maxInt)%Z ->
  strings.Repeat s smaller = Ok (repeated s (Z.to_nat smaller)).
Proof.
  intros Hcount [H0 Hle] Hint. apply Repeat_fits; [exact H0|].
  unfold strings.Repeat in Hcount.
  destruct (count <? 0)%Z; [discriminate|].
  apply Z.leb_le in Hint. rewrite Hint in Hcount. cbn [andb] in Hcount.
  destruct (maxInt <? len s * count)%Z eqn:E; [discriminate|].
  apply Z.ltb_ge in E. pose proof (len_nonneg s). nia.
Qed.

(** X5: a line break appends what [strings.Repeat] makes of a newline
    followed by the indentation and of the count, and panics as it does: on
    a negative count, and on a count that takes the length,
    [count * (1 + len(indent))], beyond the greatest [int].  When the
    repetition returns, the text is the [count] copies and has that length;
    count 0 appends nothing.  Two line breaks in a row render as one line
    break of the sum of their counts, whenever the repetition for the sum
    returns. *)
Theorem X5_line_break_counts (Count : Z) (w : OrgWriter) :
  writeNodes [LineBreak Count] w
  = emit (strings.Repeat (newline ++ indent w) Count) w
  /\ ((Count < 0)%Z -> writeNodes [LineBreak Count] w = Panic NegativeRepeatCount)
  /\ ((0 <= Count <= maxInt)%Z -> (maxInt < Count * (1 + len (indent w)))%Z ->
      writeNodes [LineBreak Count] w = Panic RepeatOverflow)
  /\ (forall text,
        strings.Repeat (newline ++ indent w) Count = Ok text ->
        (0 <= Count)%Z
        /\ text = repeated (newline ++ indent w) (Z.to_nat Count)
        /\ len text = (Count * (1 + len (indent w)))%Z
        /\ writeNodes [LineBreak Count] w = Ok (WriteString text w))
  /\ writeNodes [LineBreak 0] w = Ok w
  /\ (forall Count' text,
        (0 <= Count)%Z -> (0 <= Count')%Z -> (Count + Count' <= maxInt)%Z ->
        strings.Repeat (newline ++ indent w) (Count + Count') = Ok text ->
        writeNodes [LineBreak Count; LineBreak Count'] w = Ok (WriteString text w)
        /\ writeNodes [LineBreak (Count + Count')] w = Ok (WriteString text w)).
Proof.
  assert (Hlen : len (newline ++ indent w) = (1 + len (indent w))%Z)
    by now rewrite len_append.
  split; [apply writeNodes_LineBreak|].
  split; [|split; [|split; [|split]]].
  - intros H. now rewrite writeNodes_LineBreak, Repeat_negative.
  - intros H Hover. rewrite writeNodes_LineBreak, Repeat_overflow;
      [reflexivity|exact H|rewrite Hlen; lia].
  - intros text Htext. rewrite writeNodes_LineBreak, Htext.
    apply Repeat_returns in Htext as [H ->].
    split; [exact H|]. split; [reflexivity|]. split; [|reflexivity].
    rewrite len_repeated, Hlen, Z2Nat.id by exact H. lia.
  - rewrite writeNodes_LineBreak, Repeat_fits by (unfold maxInt; lia).
    cbn [emit bind]. apply f_equal, WriteString_empty.
  - intros Count' text H H' Hint Htext.
    rewrite writeNodes_cons, <- !writeNodes_singleton, !writeNodes_LineBreak.
    rewrite (Repeat_monotone _ _ Count _ Htext) by lia.
    cbn [emit bind]. rewrite writeNodes_LineBreak. cbn [indent WriteString].
    rewrite (Repeat_monotone _ _ Count' _ Htext) by lia.
    rewrite Htext. apply Repeat_returns in Htext as [_ ->].
    cbn [emit bind]. split; [|reflexivity].
    rewrite WriteString_WriteString, <- repeated_add.
    now rewrite Z2Nat.inj_add by lia.
Qed.

(** ** Links, blocks and plain headlines *)

Lemma writeRegularLink_emit (URL : string) (ns : list Node) (w : OrgWriter) :
  writeNodes [RegularLink URL (Some ns) false] w
  = emit (let! description := render ns w in
          Ok ("[[" ++ URL ++ "][" ++ description ++ "]]")) w.
Proof.
  rewrite writeNodes_singleton. cbn [writeNode]. fold writeNodes.
  unfold writeRegularLink, render. cbv zeta.
  now destruct (writeNodes ns (emptyClone w)).
Qed.

(** X6: a regular link has three forms.  An autolink appends its URL and
    never looks at the description; without a description the link appends
    the URL between double brackets; with one it appends the URL and the
    description, rendered in an isolated writer, each between brackets, and
    a panic of the description is the panic of the link.  An empty
    description that is not nil still takes the third form. *)
Theorem X6_regular_link_forms
    (URL : string) (Description : option (list Node)) (w : OrgWriter) :
  writeNodes [RegularLink URL Description true] w = Ok (WriteString URL w)
  /\ writeNodes [RegularLink URL None false] w
     = Ok (WriteString ("[[" ++ URL ++ "]]") w)
  /\ (forall ns,
        writeNodes [RegularLink URL (Some ns) false] w
        = emit (let! description := render ns w in
                Ok ("[[" ++ URL ++ "][" ++ description ++ "]]")) w)
  /\ writeNodes [RegularLink URL (Some []) false] w
     = Ok (WriteString ("[[" ++ URL ++ "][]]") w).
Proof.
  split; [|split; [|split]].
  - now rewrite writeNodes_singleton.
  - now rewrite writeNodes_singleton.
  - intros ns. apply writeRegularLink_emit.
  - now rewrite writeRegularLink_emit.
Qed.

Lemma writeBlock_emit (Name : string) (Parameters : list string)
    (Children : list Node) (w : OrgWriter) :
  writeNodes [Block Name Parameters Children] w
  = emit (let! body :=
            if isRawTextBlock Name then
              match Children with
              | [] => Panic (IndexOutOfRange 0 0)
              | Text content :: _ =>
                  Ok (linesText (indent w)
                        (strings.Split content (ascii_of_nat 10)))
              | first :: _ => Panic (InterfaceConversion first "org.Text")
              end
            else render Children w in
          Ok (blockBegin Name Parameters w ++ body ++ blockEnd Name w)) w.
Proof.
  rewrite writeNodes_singleton. cbn [writeNode]. fold writeNodes.
  unfold writeBlock, blockBegin, blockEnd.
  assert (Hbegin : WriteString newline
                     (if negb (Nat.eqb (length Parameters) 0)
                      then WriteString (" " ++ strings.Join Parameters " ")
                             (WriteString (indent w ++ "#+BEGIN_" ++ Name) w)
                      else WriteString (indent w ++ "#+BEGIN_" ++ Name) w)
                   = WriteString
                       (indent w ++ "#+BEGIN_" ++ Name
                        ++ (if Nat.eqb (length Parameters) 0 then EmptyString
                            else " " ++ strings.Join Parameters " ")
                        ++ newline) w).
  { destruct (Nat.eqb (length Parameters) 0); cbn [negb];
      now rewrite ?WriteString_WriteString, ?append_assoc. }
  cbv zeta. cbn [indent WriteString] in Hbegin |- *.
  set (w1 := WriteString newline _) in *. clearbody w1. subst w1.
  destruct (isRawTextBlock Name).
  - destruct Children as [|first others]; [reflexivity|].
    cbn [nodeAt lookup list_lookup bind].
    destruct first; try reflexivity.
    cbn [assertText bind]. rewrite writeLines_text. cbn [bind emit indent WriteString].
    now rewrite ?WriteString_WriteString, ?append_assoc.
  - rewrite writeNodes_emit, render_WriteString.
    destruct (render Children w) as [body|p]; [|reflexivity].
    cbn [bind emit indent WriteString].
    now rewrite ?WriteString_WriteString, ?append_assoc.
Qed.

(** X7: a block renders as its opening line, its body and its closing
    line.  The body of a block of a raw kind is read off its first child
    alone: without children the render panics on the index expression, on a
    first child that is not a text it panics on the type assertion, and the
    other children are never looked at.  The body of any other block is the
    rendering of its children, and their panic is the panic of the block. *)
Theorem X7_block_body_and_failures
    (Name : string) (Parameters : list string) (Children : list Node)
    (w : OrgWriter) :
  writeNodes [Block Name Parameters Children] w
  = emit (let! body :=
            if isRawTextBlock Name then
              match Children with
              | [] => Panic (IndexOutOfRange 0 0)
              | Text content :: _ =>
                  Ok (linesText (indent w)
                        (strings.Split content (ascii_of_nat 10)))
              | first :: _ => Panic (InterfaceConversion first "org.Text")
              end
            else render Children w in
          Ok (blockBegin Name Parameters w ++ body ++ blockEnd Name w)) w.
Proof. apply writeBlock_emit. Qed.

Lemma writeFootnoteLink_emit
    (Name : string) (definition : FootnoteDefinitionT) (w : OrgWriter) :
  writeNodes [FootnoteLink Name (Some definition)] w
  = match fdChildren definition with
    | [] => Panic (IndexOutOfRange 0 0)
    | Paragraph Children :: _ =>
        emit (let! inline := render Children w in
              Ok ("[fn:" ++ Name ++ ":" ++ inline ++ "]")) w
    | first :: _ => Panic (InterfaceConversion first "org.Paragraph")
    end.
Proof.
  rewrite writeNodes_singleton. cbn [writeNode]. fold writeNodes.
  unfold writeFootnoteLink.
  destruct (fdChildren definition) as [|first others]; [reflexivity|].
  destruct first; try reflexivity.
  rewrite writeNodes_emit, !render_WriteString.
  destruct (render Children w) as [inline|p]; [|reflexivity].
  cbn [bind emit]. now rewrite ?WriteString_WriteString, ?append_assoc.
Qed.

(** X8: a footnote link with a definition reads the first child of the
    definition alone.  Without children the render panics on the index
    expression; on a first child that is not a paragraph it panics on the
    type assertion; on a paragraph it appends [[fn:name:], the rendering of
    the children of the paragraph, and []], and the other children of the
    definition, its name and its inline flag play no part. *)
Theorem X8_footnote_link_first_child
    (Name : string) (definition : FootnoteDefinitionT) (w : OrgWriter) :
  writeNodes [FootnoteLink Name (Some definition)] w
  = match fdChildren definition with
    | [] => Panic (IndexOutOfRange 0 0)
    | Paragraph Children :: _ =>
        emit (let! inline := render Children w in
              Ok ("[fn:" ++ Name ++ ":" ++ inline ++ "]")) w
    | first :: _ => Panic (InterfaceConversion first "org.Paragraph")
    end.
Proof. apply writeFootnoteLink_emit. Qed.

Lemma writeHeadline_plain
    (Lvl : Z) (Status Priority : string) (Title Children : list Node)
    (w : OrgWriter) :
  writeNodes [Headline Lvl Status Priority Title [] Children] w
  = (let! stars := strings.Repeat "*" Lvl in
     let! title := render Title w in
     writeNodes Children
       (WriteString
          (headlineTitle stars Status Priority title ++ newline
           ++ (if Nat.eqb (length Children) 0 then EmptyString else indent w))
          w)).
Proof.
  rewrite writeNodes_singleton. cbn [writeNode]. fold writeNodes.
  unfold writeHeadline.
  destruct (strings.Repeat "*" Lvl) as [stars|p]; [|reflexivity].
  cbn [bind].
  pose proof (headline_isolated stars Status Priority Title w) as Hiso.
  cbv zeta in Hiso.
  destruct (writeNodes Title _) as [tmp|p].
  - cbn [bind] in Hiso |- *.
    destruct (render Title w) as [title|p]; [|discriminate].
    cbn [bind] in Hiso |- *. injection Hiso as ->.
    cbn [length Nat.eqb negb bind].
    destruct (Nat.eqb (length Children) 0); cbn [negb indent WriteString];
      f_equal; unfold WriteString; cbn [stringBuilder TagsColumn indent];
      now rewrite ?append_assoc, ?append_nil_r.
  - cbn [bind] in Hiso |- *.
    destruct (render Title w) as [title|p']; [discriminate|].
    cbn [bind] in Hiso |- *. now injection Hiso as ->.
Qed.

(** X9: a headline without tags renders as the stars, the status and the
    priority when present, one space and the title, then a newline, then the
    indentation when there are children, then the children; the tags column
    takes no part in its own line, and the line is not indented.  A headline
    of negative level panics before anything is written, with or without
    tags. *)
Theorem X9_headline_without_tags
    (Lvl : Z) (Status Priority : string) (Title : list Node)
    (Tags : list string) (Children : list Node) (w : OrgWriter) :
  writeNodes [Headline Lvl Status Priority Title [] Children] w
  = (let! stars := strings.Repeat "*" Lvl in
     let! title := render Title w in
     writeNodes Children
       (WriteString
          (headlineTitle stars Status Priority title ++ newline
           ++ (if Nat.eqb (length Children) 0 then EmptyString else indent w))
          w))
  /\ ((Lvl < 0)%Z ->
      writeNodes [Headline Lvl Status Priority Title Tags Children] w
      = Panic NegativeRepeatCount).
Proof.
  split; [apply writeHeadline_plain|].
  intros H. rewrite writeNodes_singleton. cbn [writeNode]. unfold writeHeadline.
  unfold strings.Repeat. apply Z.ltb_lt in H. now rewrite H.
Qed.

(** ** The footnote section, meta lines and tables *)

(** X10: when the footnote table holds definitions and all the ordered
    ones are flagged inline, the post-pass still writes the headline of the
    section, and nothing below it. *)
Theorem X10_footnote_section_all_inline (d : Document) (w : OrgWriter) :
  size (Definitions (DocFootnotes d)) <> 0%nat ->
  Forall (fun definition => fdInline definition = true)
    (Ordered (DocFootnotes d)) ->
  after d w = Ok (WriteString ("* " ++ Title (DocFootnotes d) ++ newline) w).
Proof.
  intros Hsize Hinline. unfold after, writeFootnotes.
  apply Nat.eqb_neq in Hsize. rewrite Hsize. rewrite writeFootnotes_loop.
  replace (filter _ (Ordered (DocFootnotes d))) with (@nil FootnoteDefinitionT);
    [reflexivity|].
  induction Hinline as [|definition rest Hd _ IH]; [reflexivity|].
  rewrite filter_cons, Hd. cbn [negb]. now rewrite decide_False by (intros []).
Qed.

Lemma writeCaptions_emit (Caption : list (list Node)) (w : OrgWriter) :
  forEach
    (fun ns w =>
       let w := WriteString "#+CAPTION: " w in
       let! w := writeNodes ns w in
       Ok (WriteString newline w))
    Caption w
  = emit (let! captions := renderColumns Caption w in
          Ok (captionLines captions)) w.
Proof.
  revert w. induction Caption as [|ns Caption IH]; intros w.
  - cbn. now rewrite WriteString_empty.
  - cbn [forEach renderColumns]. cbv zeta.
    rewrite writeNodes_emit, render_WriteString.
    destruct (render ns w) as [caption|p]; [|reflexivity].
    cbn [emit bind]. rewrite IH, !renderColumns_WriteString.
    destruct (renderColumns Caption w) as [captions|p]; [|reflexivity].
    cbn [emit bind]. rewrite !WriteString_WriteString.
    unfold captionLines. cbn [map concatStrings fold_right].
    now rewrite !append_assoc.
Qed.

Lemma writeAttributeLines_text (HTMLAttributes : list (list string)) (w : OrgWriter) :
  forEach
    (fun attributes w =>
       let w := WriteString "#+ATTR_HTML: " w in
       let w := writeAttributes attributes w in
       Ok (WriteString newline w))
    HTMLAttributes w
  = Ok (WriteString (attributeLines HTMLAttributes) w).
Proof.
  revert w. induction HTMLAttributes as [|attributes rest IH]; intros w.
  - cbn. now rewrite WriteString_empty.
  - cbn [forEach bind]. cbv zeta. rewrite writeAttributes_text, IH.
    rewrite !WriteString_WriteString.
    unfold attributeLines. cbn [map concatStrings fold_right].
    now rewrite !append_assoc.
Qed.

Lemma writeNodeWithMeta_emit (n : Node) (Caption : list (list Node))
    (HTMLAttributes : list (list string)) (w : OrgWriter) :
  writeNodes [NodeWithMeta n Caption HTMLAttributes] w
  = emit (let! captions := renderColumns Caption w in
          let! body := render [n] w in
          Ok (captionLines captions ++ attributeLines HTMLAttributes ++ body)) w.
Proof.
  rewrite writeNodes_singleton. cbn [writeNode]. fold writeNodes.
  unfold writeNodeWithMeta. rewrite writeCaptions_emit.
  destruct (renderColumns Caption w) as [captions|p]; [|reflexivity].
  cbn [emit bind]. rewrite writeAttributeLines_text. cbn [bind].
  rewrite writeNodes_emit, !render_WriteString.
  destruct (render [n] w) as [body|p]; [|reflexivity].
  cbn [emit bind]. now rewrite ?WriteString_WriteString, ?append_assoc.
Qed.

(** X11: a node with meta renders as one [#+CAPTION: ] line per caption,
    then one [#+ATTR_HTML: ] line per attribute list, then the wrapped node;
    the meta lines are not indented.  Without captions and attribute lists
    it renders as the wrapped node alone. *)
Theorem X11_node_with_meta_lines (n : Node) (Caption : list (list Node))
    (HTMLAttributes : list (list string)) (w : OrgWriter) :
  writeNodes [NodeWithMeta n Caption HTMLAttributes] w
  = emit (let! captions := renderColumns Caption w in
          let! body := render [n] w in
          Ok (captionLines captions ++ attributeLines HTMLAttributes ++ body)) w
  /\ writeNodes [NodeWithMeta n [] []] w = writeNodes [n] w.
Proof.
  split; [apply writeNodeWithMeta_emit|].
  rewrite writeNodeWithMeta_emit. cbn [renderColumns bind].
  rewrite (writeNodes_emit [n]). now destruct (render [n] w).
Qed.

Lemma attributesText_app (attributes more : list string) :
  Nat.even (length attributes) = true ->
  attributesText (attributes ++ more)%list
  = attributesText attributes ++ attributesText more.
Proof.
  induction attributes as [attributes IH] using (induction_ltof1 _ (@length string)).
  unfold ltof in IH. intros Heven.
  destruct attributes as [|key [|value rest]]; [reflexivity|discriminate|].
  cbn [app attributesText]. rewrite IH by (cbn; (lia || assumption)).
  now rewrite !append_assoc.
Qed.

(** X12: the attributes of an [#+ATTR_HTML: ] line are written pair by
    pair.  After an even number of entries the loop goes on as from the
    start, so writing [attributes ++ more] is writing [attributes] and then
    [more]; a last entry without a partner is not written at all. *)
Theorem X12_attributes_in_pairs
    (attributes more : list string) (last : string) (w : OrgWriter) :
  Nat.even (length attributes) = true ->
  writeAttributes (attributes ++ more)%list w
  = writeAttributes more (writeAttributes attributes w)
  /\ writeAttributes (attributes ++ [last])%list w = writeAttributes attributes w.
Proof.
  intros Heven. rewrite !writeAttributes_text, !attributesText_app by exact Heven.
  split.
  - now rewrite WriteString_WriteString.
  - cbn [attributesText]. now rewrite append_nil_r.
Qed.

Lemma writeEmphasis_emit (Kind left right : string) (Content : list Node)
    (w : OrgWriter) :
  emphasisOrgBorders !! Kind = Some [left; right] ->
  writeNodes [Emphasis Kind Content] w
  = emit (let! content := render Content w in
          Ok (left ++ content ++ right)) w.
Proof.
  intros E. rewrite writeNodes_singleton. cbn [writeNode]. fold writeNodes.
  unfold writeEmphasis. rewrite E. cbn [index lookup list_lookup bind].
  rewrite writeNodes_emit, render_WriteString.
  destruct (render Content w) as [content|p]; [|reflexivity].
  cbn [emit bind]. now rewrite !WriteString_WriteString.
Qed.

(** X13: the borders of the eight emphasis kinds.  Underline, bold,
    italic, strike-through and the two verbatim kinds put their one
    character before and behind the content; subscript and superscript put
    [_{] or [^{] before it and [}] behind it. *)
Theorem X13_emphasis_border_strings (Content : list Node) (w : OrgWriter) :
  (forall Kind,
      Kind ∈ ["_"; "*"; "/"; "+"; "~"; "="] ->
      writeNodes [Emphasis Kind Content] w
      = emit (let! content := render Content w in
              Ok (Kind ++ content ++ Kind)) w)
  /\ writeNodes [Emphasis "_{}" Content] w
     = emit (let! content := render Content w in
             Ok ("_{" ++ content ++ "}")) w
  /\ writeNodes [Emphasis "^{}" Content] w
     = emit (let! content := render Content w in
             Ok ("^{" ++ content ++ "}")) w.
Proof.
  split; [|split]; [|now apply writeEmphasis_emit..].
  intros Kind Hin.
  repeat (apply elem_of_cons in Hin; destruct Hin as [->|Hin];
          [now apply writeEmphasis_emit|]).
  now apply elem_of_nil in Hin.
Qed.

Lemma render_of_emit (ns : list Node) (r : result string) (w : OrgWriter) :
  writeNodes ns (emptyClone w) = emit r (emptyClone w) -> render ns w = r.
Proof.
  intros H. unfold render. rewrite H.
  destruct r as [text|p]; [|reflexivity].
  cbn [emit bind String_ WriteString emptyClone stringBuilder].
  now rewrite append_nil_l.
Qed.

Lemma renderColumns_emptyClone (columns : list (list Node)) (w : OrgWriter) :
  renderColumns columns (emptyClone w) = renderColumns columns w.
Proof.
  induction columns as [|ns rest IH]; [reflexivity|].
  cbn [renderColumns]. now rewrite IH, render_emptyClone.
Qed.

Lemma render_TableRow (Columns : list (list Node)) (w : OrgWriter) :
  render [TableRow Columns] w = rowText Columns w.
Proof.
  apply render_of_emit. rewrite writeNodes_singleton. cbn [writeNode].
  fold writeNodes. unfold writeTableRow. rewrite writeTableColumns_emit.
  unfold rowText. now rewrite renderColumns_emptyClone.
Qed.

Lemma render_rows (rows : list (list (list Node))) (w : OrgWriter) :
  render (map TableRow rows) w = rowsText rows w.
Proof.
  induction rows as [|columns rest IH]; [reflexivity|].
  cbn [map rowsText]. now rewrite render_cons, render_TableRow, IH.
Qed.

(** X14: a table whose header has the columns [Columns] and a separator of
    content [Content], over the rows [rows], renders as the header line, the
    separator line and one line per row, in that order, each behind the
    indentation; a panic in a cell is the panic of the table.  A table whose
    header is nil renders as its row lines alone. *)
Theorem X14_table_lines
    (Columns : list (list Node)) (Content : string)
    (rows : list (list (list Node))) (w : OrgWriter) :
  writeNodes
    [Table (TableHeader Columns (TableSeparator Content)) (map TableRow rows)] w
  = emit (let! header := rowText Columns w in
          let! lines := rowsText rows w in
          Ok (header ++ (indent w ++ Content ++ newline) ++ lines)) w
  /\ writeNodes [Table Nil (map TableRow rows)] w = emit (rowsText rows w) w.
Proof.
  split.
  - rewrite writeNodes_singleton. cbn [writeNode]. fold writeNodes.
    unfold writeTable. rewrite writeNodes_singleton. cbn [writeNode].
    fold writeNodes. unfold writeTableHeader.
    rewrite writeTableColumns_emit. unfold rowText.
    destruct (renderColumns Columns w) as [cells|p]; [|reflexivity].
    cbn [emit bind]. rewrite writeNodes_singleton.
    cbn [writeNode writeTableSeparator bind indent WriteString].
    rewrite writeNodes_emit, !render_WriteString, render_rows.
    destruct (rowsText rows w) as [lines|p]; [|reflexivity].
    cbn [emit bind]. now rewrite ?WriteString_WriteString, ?append_assoc.
  - rewrite writeNodes_singleton. cbn [writeNode]. fold writeNodes.
    unfold writeTable. rewrite writeNodes_singleton. cbn [writeNode bind].
    now rewrite writeNodes_emit, render_rows.
Qed.

(** ** The text of each node

    One equation per variant: the text a node renders to, from the texts of
    its children and the indentation. *)

Lemma render_from_emit (ns : list Node) (F : OrgWriter -> result string)
    (w : OrgWriter) :
  (forall v, writeNodes ns v = emit (F v) v) -> render ns w = F (emptyClone w).
Proof. intros H. apply render_of_emit, H. Qed.

Lemma render_Nil (w : OrgWriter) : render [Nil] w = Ok EmptyString.
Proof. reflexivity. Qed.

Lemma render_Comment (Content : string) (w : OrgWriter) :
  render [Comment Content] w = Ok (indent w ++ "#" ++ Content).
Proof.
  now apply (render_from_emit _ (fun v => Ok (indent v ++ "#" ++ Content))).
Qed.

Lemma render_Keyword (Key Value : string) (w : OrgWriter) :
  render [Keyword Key Value] w
  = Ok (indent w ++ "#+" ++ Key ++ ": " ++ Value ++ newline).
Proof.
  now apply (render_from_emit _
               (fun v => Ok (indent v ++ "#+" ++ Key ++ ": " ++ Value ++ newline))).
Qed.

Lemma render_TableSeparator (Content : string) (w : OrgWriter) :
  render [TableSeparator Content] w = Ok (indent w ++ Content ++ newline).
Proof.
  now apply (render_from_emit _ (fun v => Ok (indent v ++ Content ++ newline))).
Qed.

Lemma render_HorizontalRule (w : OrgWriter) :
  render [HorizontalRule] w = Ok (indent w ++ "-----" ++ newline).
Proof.
  now apply (render_from_emit _ (fun v => Ok (indent v ++ "-----" ++ newline))).
Qed.

Lemma render_LineBreak (Count : Z) (w : OrgWriter) :
  render [LineBreak Count] w = strings.Repeat (newline ++ indent w) Count.
Proof.
  apply (render_from_emit _ (fun v => strings.Repeat (newline ++ indent v) Count)).
  intros v. now rewrite writeNodes_singleton.
Qed.

Lemma render_ExplicitLineBreak (w : OrgWriter) :
  render [ExplicitLineBreak] w = Ok ("\\" ++ newline ++ indent w).
Proof.
  now apply (render_from_emit _ (fun v => Ok ("\\" ++ newline ++ indent v))).
Qed.

Lemma render_Block (Name : string) (Parameters : list string)
    (Children : list Node) (w : OrgWriter) :
  render [Block Name Parameters Children] w
  = (let! body :=
       if isRawTextBlock Name then
         match Children with
         | [] => Panic (IndexOutOfRange 0 0)
         | Text content :: _ =>
             Ok (linesText (indent w) (strings.Split content (ascii_of_nat 10)))
         | first :: _ => Panic (InterfaceConversion first "org.Text")
         end
       else render Children w in
     Ok (blockBegin Name Parameters w ++ body ++ blockEnd Name w)).
Proof.
  exact (render_from_emit _ _ w (writeBlock_emit Name Parameters Children)).
Qed.

Lemma render_FootnoteDefinition (f : FootnoteDefinitionT) (w : OrgWriter) :
  render [FootnoteDefinition f] w
  = (let! children := render (fdChildren f) w in
     Ok ("[fn:" ++ fdName f ++ "]"
         ++ definitionSeparator (fdChildren f) ++ children)).
Proof.
  apply (render_from_emit _
           (fun v => let! children := render (fdChildren f) v in
                     Ok ("[fn:" ++ fdName f ++ "]"
                         ++ definitionSeparator (fdChildren f) ++ children))).
  intros v. rewrite writeNodes_singleton. apply writeFootnoteDefinition_emit.
Qed.

Lemma render_List (Items : list Node) (w : OrgWriter) :
  render [List Items] w = render Items w.
Proof. unfold render. now rewrite writeNodes_singleton. Qed.

Lemma render_ListItem (Bullet : string) (Children : list Node) (w : OrgWriter) :
  render [ListItem Bullet Children] w
  = (let! body := render Children (withIndent (itemIndent Bullet w) w) in
     Ok (indent w ++ Bullet ++ " "
         ++ strings.TrimPrefix body (itemIndent Bullet w))).
Proof.
  apply (render_from_emit _
           (fun v => let! body := render Children (withIndent (itemIndent Bullet v) v) in
                     Ok (indent v ++ Bullet ++ " "
                         ++ strings.TrimPrefix body (itemIndent Bullet v)))).
  intros v. rewrite writeNodes_singleton. apply writeListItem_emit.
Qed.

Lemma render_Table (Header : Node) (Rows : list Node) (w : OrgWriter) :
  render [Table Header Rows] w = render (Header :: Rows) w.
Proof.
  unfold render. rewrite writeNodes_singleton, writeNodes_cons.
  cbn [writeNode]. fold writeNodes. unfold writeTable.
  now rewrite writeNodes_singleton.
Qed.

Lemma render_TableHeader (Columns : list (list Node)) (Separator : Node)
    (w : OrgWriter) :
  render [TableHeader Columns Separator] w
  = (let! line := rowText Columns w in
     let! separator := render [Separator] w in
     Ok (line ++ separator)).
Proof.
  rewrite (render_from_emit _
             (fun v => let! line := rowText Columns v in
                       let! separator := render [Separator] v in
                       Ok (line ++ separator)) w).
  { unfold rowText. now rewrite renderColumns_emptyClone. }
  intros v. rewrite writeNodes_singleton. cbn [writeNode]. fold writeNodes.
  unfold writeTableHeader, rowText. rewrite writeTableColumns_emit.
  destruct (renderColumns Columns v) as [cells|p]; [|reflexivity].
  cbn [emit bind]. rewrite writeNodes_emit, render_WriteString.
  destruct (render [Separator] v) as [separator|p]; [|reflexivity].
  cbn [emit bind]. now rewrite WriteString_WriteString.
Qed.

Lemma render_Paragraph (Children : list Node) (w : OrgWriter) :
  render [Paragraph Children] w
  = (let! children := render Children w in Ok (children ++ newline)).
Proof.
  apply (render_from_emit _
           (fun v => let! children := render Children v in
                     Ok (children ++ newline))).
  intros v. rewrite writeNodes_singleton. cbn [writeNode]. fold writeNodes.
  unfold writeParagraph. rewrite writeNodes_emit.
  destruct (render Children v) as [children|p]; [|reflexivity].
  cbn [emit bind]. now rewrite WriteString_WriteString.
Qed.

Lemma render_Headline_plain
    (Lvl : Z) (Status Priority : string) (Title Children : list Node)
    (w : OrgWriter) :
  render [Headline Lvl Status Priority Title [] Children] w
  = (let! stars := strings.Repeat "*" Lvl in
     let! title := render Title w in
     let! children := render Children w in
     Ok (headlineTitle stars Status Priority title ++ newline
         ++ (if Nat.eqb (length Children) 0 then EmptyString else indent w)
         ++ children)).
Proof.
  apply (render_from_emit _
           (fun v => let! stars := strings.Repeat "*" Lvl in
                     let! title := render Title v in
                     let! children := render Children v in
                     Ok (headlineTitle stars Status Priority title ++ newline
                         ++ (if Nat.eqb (length Children) 0 then EmptyString
                             else indent v)
                         ++ children))).
  intros v. rewrite writeHeadline_plain.
  destruct (strings.Repeat "*" Lvl) as [stars|p]; [|reflexivity].
  cbn [bind]. destruct (render Title v) as [title|p]; [|reflexivity].
  cbn [bind]. rewrite writeNodes_emit, render_WriteString.
  destruct (render Children v) as [children|p]; [|reflexivity].
  cbn [emit bind]. now rewrite WriteString_WriteString, ?append_assoc.
Qed.

Lemma render_Emphasis (Kind : string) (Content : list Node) (w : OrgWriter) :
  render [Emphasis Kind Content] w
  = match emphasisOrgBorders !! Kind with
    | Some borders =>
        let! content := render Content w in
        Ok (concatStrings (take 1 borders) ++ content
            ++ concatStrings (take 1 (drop 1 borders)))
    | None => Panic (BadEmphasis Kind Content)
    end.
Proof.
  destruct (emphasisOrgBorders !! Kind) as [borders|] eqn:E.
  - destruct (emphasisOrgBorders_pair _ _ E) as [_ (left & right & ->)].
    cbn [take drop concatStrings fold_right]. rewrite !append_nil_r.
    apply (render_from_emit _
             (fun v => let! content := render Content v in
                       Ok (left ++ content ++ right))).
    intros v. now apply writeEmphasis_emit.
  - unfold render. rewrite writeNodes_singleton. cbn [writeNode].
    unfold writeEmphasis. now rewrite E.
Qed.

Lemma render_RegularLink (URL : string) (Description : option (list Node))
    (AutoLink : bool) (w : OrgWriter) :
  render [RegularLink URL Description AutoLink] w
  = if AutoLink then Ok URL
    else match Description with
         | None => Ok ("[[" ++ URL ++ "]]")
         | Some ns =>
             let! description := render ns w in
             Ok ("[[" ++ URL ++ "][" ++ description ++ "]]")
         end.
Proof.
  destruct AutoLink; [reflexivity|]. destruct Description as [ns|]; [|reflexivity].
  exact (render_from_emit _ _ w (writeRegularLink_emit URL ns)).
Qed.

Lemma render_FootnoteLink (Name : string)
    (Definition_ : option FootnoteDefinitionT) (w : OrgWriter) :
  render [FootnoteLink Name Definition_] w
  = match Definition_ with
    | None => Ok ("[fn:" ++ Name ++ "]")
    | Some definition =>
        match fdChildren definition with
        | [] => Panic (IndexOutOfRange 0 0)
        | Paragraph Children :: _ =>
            let! inline := render Children w in
            Ok ("[fn:" ++ Name ++ ":" ++ inline ++ "]")
        | first :: _ => Panic (InterfaceConversion first "org.Paragraph")
        end
    end.
Proof.
  destruct Definition_ as [definition|]; [|reflexivity].
  apply render_of_emit. rewrite writeFootnoteLink_emit.
  destruct (fdChildren definition) as [|first others]; [reflexivity|].
  destruct first; reflexivity.
Qed.

Lemma render_NodeWithMeta (n : Node) (Caption : list (list Node))
    (HTMLAttributes : list (list string)) (w : OrgWriter) :
  render [NodeWithMeta n Caption HTMLAttributes] w
  = (let! captions := renderColumns Caption w in
     let! body := render [n] w in
     Ok (captionLines captions ++ attributeLines HTMLAttributes ++ body)).
Proof.
  rewrite (render_from_emit _ _ w (writeNodeWithMeta_emit n Caption HTMLAttributes)).
  now rewrite renderColumns_emptyClone.
Qed.

(** ** Indentation of the first child of a list item *)

Lemma indentFirst_prefix (n : Node) (w : OrgWriter) (text : string) :
  indentFirst n = true -> render [n] w = Ok text ->
  exists tail, text = indent w ++ tail.
Proof.
  intros Hn H. destruct n; try discriminate;
    rewrite ?render_Comment, ?render_Keyword, ?render_Block, ?render_ListItem,
      ?render_TableHeader, ?render_TableRow, ?render_TableSeparator,
      ?render_HorizontalRule in H;
    unfold blockBegin, rowText in H;
    repeat match type of H with
           | context [bind ?r _] =>
               lazymatch r with
               | bind _ _ => fail
               | Ok _ => fail
               | Panic _ => fail
               | _ => destruct r; cbn [bind] in H; [|discriminate]
               end
           end;
    injection H as <-; rewrite ?append_assoc; now eexists.
Qed.

(** X15: when the first child of a list item is a nested list item, a
    keyword, a comment, a block, a horizontal rule or a table header, row or
    separator, the text of the children starts with the indentation of the
    isolated writer, and the list item appends its own indentation, the
    bullet, one space and what follows that indentation: the first child
    stands right behind the bullet. *)
Theorem X15_list_item_first_child_behind_bullet
    (Bullet : string) (first : Node) (others : list Node) (w : OrgWriter)
    (body : string) :
  indentFirst first = true ->
  render (first :: others) (withIndent (itemIndent Bullet w) w) = Ok body ->
  exists tail,
    body = itemIndent Bullet w ++ tail
    /\ writeNodes [ListItem Bullet (first :: others)] w
       = Ok (WriteString (indent w ++ Bullet ++ " " ++ tail) w).
Proof.
  intros Hfirst Hbody. pose proof Hbody as Hsplit.
  rewrite render_cons in Hsplit.
  destruct (render [first] _) as [a|p] eqn:Ha; [|discriminate].
  cbn [bind] in Hsplit.
  destruct (render others _) as [b|p]; [|discriminate].
  cbn [bind] in Hsplit. injection Hsplit as <-.
  destruct (indentFirst_prefix _ _ _ Hfirst Ha) as [tail ->].
  cbn [indent withIndent]. exists (tail ++ b). rewrite append_assoc.
  split; [reflexivity|].
  rewrite writeNodes_singleton. cbn [writeNode]. fold writeNodes.
  rewrite writeListItem_emit, Hbody. cbn [emit bind indent withIndent].
  now rewrite append_assoc, TrimPrefix_append.
Qed.

(** ** The tags column of tag-free trees *)

Lemma tagFreeDeep_nodes (ns : list Node) :
  Forall tagFreeDeep ns -> forallb tagFree ns = true ->
  forall w v, indent v = indent w -> render ns v = render ns w.
Proof.
  induction 1 as [|n ns [Hn _] _ IH]; intros Hfree w v Hi; [reflexivity|].
  cbn [forallb] in Hfree. apply andb_true_iff in Hfree as [H1 H2].
  now rewrite (render_cons n ns v), (render_cons n ns w),
    (Hn H1 w v Hi), (IH H2 w v Hi).
Qed.

Lemma tagFreeDeep_columns (columns : list (list Node)) :
  Forall (Forall tagFreeDeep) columns ->
  forallb (forallb tagFree) columns = true ->
  forall w v, indent v = indent w ->
    renderColumns columns v = renderColumns columns w.
Proof.
  induction 1 as [|ns columns Hns _ IH]; intros Hfree w v Hi; [reflexivity|].
  cbn [forallb] in Hfree. apply andb_true_iff in Hfree as [H1 H2].
  cbn [renderColumns].
  now rewrite (tagFreeDeep_nodes ns Hns H1 w v Hi), (IH H2 w v Hi).
Qed.

Ltac split_tagFree H :=
  cbn [tagFree] in H;
  repeat match type of H with
         | (_ && _) = true =>
             let H' := fresh "Hfree" in
             apply andb_true_iff in H as [H H']
         end.

Ltac use_tagFree w v Hi :=
  repeat match goal with
         | H : Forall _ ?ns, Hf : forallb tagFree ?ns = true |- _ =>
             try rewrite (tagFreeDeep_nodes ns H Hf w v Hi); clear H
         | H : Forall _ ?cs, Hf : forallb (forallb tagFree) ?cs = true |- _ =>
             try rewrite (tagFreeDeep_columns cs H Hf w v Hi); clear H
         | H : tagFreeDeep ?n, Hf : tagFree ?n = true |- _ =>
             try rewrite (proj1 H Hf w v Hi); clear H
         end.

Lemma tagFree_deep (n : Node) : tagFreeDeep n.
Proof.
  induction n using Node_nested_ind;
    (split; [intros Hfree w v Hi; split_tagFree Hfree | try exact I]);
    rewrite ?render_Comment, ?render_Keyword, ?render_NodeWithMeta,
      ?render_Block, ?render_FootnoteDefinition, ?render_List,
      ?render_Table, ?render_TableHeader, ?render_TableRow,
      ?render_TableSeparator, ?render_Paragraph, ?render_HorizontalRule,
      ?render_Emphasis, ?render_LineBreak, ?render_ExplicitLineBreak,
      ?render_RegularLink, ?render_FootnoteLink;
    unfold blockBegin, blockEnd, rowText; rewrite ?Hi;
    try solve [reflexivity | use_tagFree w v Hi; reflexivity].
  - destruct Tags; [|discriminate].
    rewrite !render_Headline_plain, Hi. now use_tagFree w v Hi.
  - destruct (isRawTextBlock Name); [reflexivity|].
    cbn [orb] in Hfree. now use_tagFree w v Hi.
  - rewrite !render_ListItem. unfold itemIndent. rewrite Hi.
    match goal with
    | H : Forall _ ?ns, Hf : forallb tagFree ?ns = true |- _ =>
        now rewrite (tagFreeDeep_nodes ns H Hf
                       (withIndent (indent w ++ spaces (S (String.length Bullet))) w)
                       (withIndent (indent w ++ spaces (S (String.length Bullet))) v)
                       eq_refl)
    end.
  - match goal with
    | H : tagFreeDeep ?n, Hf : tagFree ?n = true, H' : Forall _ ?ns |- _ =>
        apply (tagFreeDeep_nodes (n :: ns));
        [now constructor | cbn [forallb]; now rewrite Hf | exact Hi]
    end.
  - intros Hfree w v Hi. now use_tagFree w v Hi.
  - destruct AutoLink; [reflexivity|]. cbn [orb] in Hfree.
    destruct Description as [ns|]; [|reflexivity]. cbn [onOption] in *.
    now use_tagFree w v Hi.
  - destruct Definition_ as [[name children inline]|]; [|reflexivity].
    cbn [onOption fdChildren] in *.
    destruct children as [|first others]; [reflexivity|].
    destruct first; try reflexivity.
    match goal with
    | H : Forall _ (Paragraph _ :: _) |- _ =>
        apply Forall_cons_1 in H; destruct H as [[_ Hp] _]
    end.
    now rewrite (Hp Hfree w v Hi).
Qed.

(** X16: the tags column matters to headlines with tags alone.  A node
    sequence in which no headline has tags renders to the same text, or
    panics with the same value, on any two writers of the same indentation,
    whatever their tags columns and the texts in their builders.  Headlines
    where the writer never descends do not count: among the children of a
    block of a raw kind, in the description of an autolink, and in the
    definition of a footnote link outside the children of its first
    paragraph. *)
Theorem X16_tags_column_of_tag_free_trees (ns : list Node) (w v : OrgWriter) :
  forallb tagFree ns = true ->
  indent v = indent w ->
  render ns v = render ns w
  /\ writeNodes ns v = emit (render ns w) v.
Proof.
  intros Hfree Hi.
  assert (H : render ns v = render ns w).
  { apply tagFreeDeep_nodes; [|exact Hfree|exact Hi].
    apply Forall_forall. intros n _. apply tagFree_deep. }
  split; [exact H|]. now rewrite writeNodes_emit, H.
Qed.

(** ** Inline content *)

Lemma inlineOnlyDeep_nodes (ns : list Node) :
  Forall inlineOnlyDeep ns -> forallb inlineOnly ns = true ->
  forall w v, render ns v = render ns w.
Proof.
  induction 1 as [|n ns [Hn _] _ IH]; intros Hinline w v; [reflexivity|].
  cbn [forallb] in Hinline. apply andb_true_iff in Hinline as [H1 H2].
  now rewrite (render_cons n ns v), (render_cons n ns w),
    (Hn H1 w v), (IH H2 w v).
Qed.

Lemma inlineOnly_deep (n : Node) : inlineOnlyDeep n.
Proof.
  induction n using Node_nested_ind;
    (split; [intros Hinline w v; cbn [inlineOnly] in Hinline | try exact I]);
    try discriminate; try reflexivity.
  - match goal with
    | H : Forall _ ?ns |- _ => exact (inlineOnlyDeep_nodes ns H)
    end.
  - rewrite !render_Emphasis.
    match goal with
    | H : Forall _ ?ns |- _ => now rewrite (inlineOnlyDeep_nodes ns H Hinline w v)
    end.
  - rewrite !render_RegularLink. destruct AutoLink; [reflexivity|].
    destruct Description as [ns|]; [|reflexivity]. cbn [onOption] in *.
    match goal with
    | H : Forall _ ?ns |- _ => now rewrite (inlineOnlyDeep_nodes ns H Hinline w v)
    end.
  - rewrite !render_FootnoteLink.
    destruct Definition_ as [[name children inline]|]; [|reflexivity].
    cbn [onOption fdChildren] in *.
    destruct children as [|first others]; [reflexivity|].
    destruct first; try reflexivity.
    match goal with
    | H : Forall _ (Paragraph _ :: _) |- _ =>
        apply Forall_cons_1 in H; destruct H as [[_ Hp] _]
    end.
    now rewrite (Hp Hinline w v).
Qed.

(** X18: inline content without line breaks renders the same everywhere.
    A sequence of texts, emphasis spans, regular links and footnote links,
    nested in one another, renders to the same text, or panics with the
    same value, on every writer: neither the indentation, nor the tags
    column, nor the text in the builder plays a part. *)
Theorem X18_inline_content_is_context_free (ns : list Node) (w v : OrgWriter) :
  forallb inlineOnly ns = true ->
  render ns v = render ns w
  /\ writeNodes ns v = emit (render ns w) v.
Proof.
  intros Hinline.
  assert (H : render ns v = render ns w).
  { apply inlineOnlyDeep_nodes; [|exact Hinline].
    apply Forall_forall. intros n _. apply inlineOnly_deep. }
  split; [exact H|]. now rewrite writeNodes_emit, H.
Qed.

End Writer.

(** ** Closed instances *)

Abbreviation exampleNodes :=
  (writeNodes exampleRawTextBlock exampleEmptyLineParagraph).

Abbreviation exampleRender :=
  (render exampleRawTextBlock exampleEmptyLineParagraph).

(** The headline [Foo] with the tags [a] and [b].  At tags column 20 the
    pad is 10 and the line is 20 bytes long; at tags column 10 the pad is 0
    and the tags follow the title behind one space. *)
Lemma C1_headline_tag_alignment_witness :
  (["a"; "b"] <> []
   /\ strings.Repeat "*" 1 = Ok "*"
   /\ exampleRender [Text "Foo"] exampleWideWriter = Ok "Foo"
   /\ (minInt <= 20 - len ":a:b:" - len "* Foo" - 1 <= maxInt)%Z
   /\ strings.Repeat " " (20 - len ":a:b:" - len "* Foo" - 1) = Ok "         "
   /\ exampleNodes [exampleHeadline] exampleWideWriter
      = Ok (WriteString ("* Foo          :a:b:" ++ newline) exampleWideWriter)
   /\ len "* Foo          :a:b:" = 20%Z)
  /\ (exampleRender [Text "Foo"] exampleWriter = Ok "Foo"
      /\ (minInt <= 10 - len ":a:b:" - len "* Foo" - 1 <= maxInt)%Z
      /\ exampleNodes [exampleHeadline] exampleWriter
         = Ok (WriteString ("* Foo :a:b:" ++ newline) exampleWriter)).
Proof.
  assert (Htags : ["a"; "b"] <> []) by discriminate.
  assert (Hwide : (minInt <= 20 - len ":a:b:" - len "* Foo" - 1 <= maxInt)%Z)
    by (vm_compute; split; discriminate).
  assert (Hrange : (minInt <= 10 - len ":a:b:" - len "* Foo" - 1 <= maxInt)%Z)
    by (vm_compute; split; discriminate).
  split.
  - split; [exact Htags|].
    split; [reflexivity|].
    split; [reflexivity|].
    split; [exact Hwide|].
    split; [reflexivity|].
    exact (conj
             (proj1 (C1_headline_tag_alignment
                       exampleRawTextBlock exampleEmptyLineParagraph
                       1 EmptyString EmptyString [Text "Foo"] ["a"; "b"] []
                       exampleWideWriter "*" "Foo" Htags eq_refl eq_refl Hwide
                       (fun _ => ex_intro _ "         " eq_refl)))
             (proj2 (C1_headline_tag_alignment
                       exampleRawTextBlock exampleEmptyLineParagraph
                       1 EmptyString EmptyString [Text "Foo"] ["a"; "b"] []
                       exampleWideWriter "*" "Foo" Htags eq_refl eq_refl Hwide
                       (fun _ => ex_intro _ "         " eq_refl))
                    eq_refl)).
  - split; [reflexivity|].
    split; [exact Hrange|].
    exact (proj1 (C1_headline_tag_alignment
                    exampleRawTextBlock exampleEmptyLineParagraph
                    1 EmptyString EmptyString [Text "Foo"] ["a"; "b"] []
                    exampleWriter "*" "Foo" Htags eq_refl eq_refl Hrange
                    (fun H : (1 < 0)%Z =>
                       match Z.lt_irrefl _ (Z.lt_trans _ _ _ Z.lt_0_1 H) with end))).
Defined.

(** C1 as stated fails: at the least tags column the pad of the claim is
    negative, so that the claim has the tags follow the title behind one
    space; the subtraction of the writer wraps around to [2^63 - 11], and the
    writer asks [strings.Repeat] for as many spaces. *)
Lemma C1_counterexample_tags_column_wraps :
  (TagsColumn exampleMinWriter - len ":a:b:" - len "* Foo" <= 0)%Z
  /\ exampleNodes [exampleHeadline] exampleMinWriter
     = (let! padding := strings.Repeat " " (2 ^ 63 - 11) in
        Ok (WriteString ("* Foo " ++ padding ++ ":a:b:" ++ newline)
              exampleMinWriter))
  /\ exampleNodes [exampleHeadline] exampleMinWriter
     <> Ok (WriteString ("* Foo :a:b:" ++ newline) exampleMinWriter).
Proof.
  assert (Htags : ["a"; "b"] <> []) by discriminate.
  pose proof (writeHeadline_tagged
                exampleRawTextBlock exampleEmptyLineParagraph
                1 EmptyString EmptyString [Text "Foo"] ["a"; "b"] []
                exampleMinWriter "*" "Foo" Htags eq_refl eq_refl) as H.
  cbv zeta in H. fold exampleHeadline in H.
  change (headlineTitle "*" EmptyString EmptyString "Foo") with "* Foo" in H.
  change (":" ++ strings.Join ["a"; "b"] ":" ++ ":") with ":a:b:" in H.
  replace (wrapInt (TagsColumn exampleMinWriter - len ":a:b:" - len "* Foo" - 1))
    with (2 ^ 63 - 11)%Z in H by (vm_compute; reflexivity).
  replace (2 ^ 63 - 11 >? 0)%Z with true in H by (vm_compute; reflexivity).
  split; [vm_compute; discriminate|].
  remember (strings.Repeat " " (2 ^ 63 - 11)) as r eqn:Hr in *.
  assert (E : exampleNodes [exampleHeadline] exampleMinWriter
              = bind r (fun padding =>
                  Ok (WriteString ("* Foo " ++ padding ++ ":a:b:" ++ newline)
                        exampleMinWriter))).
  { rewrite H. destruct r as [padding|p]; [|reflexivity]. unfold bind.
    change (Nat.eqb (length (@nil Node)) 0) with true. cbv iota.
    change (exampleNodes [] ?x) with (Ok x).
    now rewrite append_nil_r, !append_assoc. }
  split; [exact E|].
  rewrite E. destruct r as [padding|p]; [|discriminate]. unfold bind.
  symmetry in Hr. apply Repeat_returns in Hr as [_ ->].
  intros Heq. apply WriteString_len in Heq.
  rewrite !len_append, len_repeated in Heq.
  rewrite Z2Nat.id in Heq by (vm_compute; discriminate).
  revert Heq. vm_compute. discriminate.
Qed.



(** A source block two spaces deep whose content spells a closing line of
    its own: each of its two lines stands behind the indentation. *)
Lemma C4_raw_block_verbatim_witness :
  exampleRawTextBlock "SRC" = true
  /\ strings.Split ("x := 1" ++ newline ++ "#+END_SRC") (ascii_of_nat 10)
     = ["x := 1"; "#+END_SRC"]
  /\ exampleNodes
       [Block "SRC" ["go"] [Text ("x := 1" ++ newline ++ "#+END_SRC")]]
       exampleIndentedWriter
     = Ok (WriteString
             ("  #+BEGIN_SRC go" ++ newline
              ++ "  x := 1" ++ newline
              ++ "  #+END_SRC" ++ newline
              ++ "  #+END_SRC" ++ newline) exampleIndentedWriter).
Proof.
  split; [reflexivity|].
  split; [reflexivity|].
  exact (proj1 (C4_raw_block_verbatim
                  exampleRawTextBlock exampleEmptyLineParagraph
                  "SRC" ["go"] ("x := 1" ++ newline ++ "#+END_SRC") []
                  exampleIndentedWriter eq_refl)).
Defined.

(** A list item whose first child is a line break: the text of the
    sub-render starts with a newline, not with the two spaces, and is
    appended as it is. *)
Lemma C10_list_item_trim_conditional_witness :
  exampleRender [LineBreak 1; Text "x"]
    (withIndent (itemIndent "-" NewOrgWriter) NewOrgWriter)
  = Ok (newline ++ "  x")
  /\ strings.HasPrefix (newline ++ "  x") (itemIndent "-" NewOrgWriter) = false
  /\ exampleNodes [ListItem "-" [LineBreak 1; Text "x"]] NewOrgWriter
     = Ok (WriteString ("-" ++ " " ++ newline ++ "  x") NewOrgWriter).
Proof.
  split; [reflexivity|].
  split; [reflexivity|].
  exact (proj1 (C10_list_item_trim_conditional
                  exampleRawTextBlock exampleEmptyLineParagraph
                  "-" [LineBreak 1; Text "x"] NewOrgWriter (newline ++ "  x")
                  eq_refl) eq_refl).
Defined.

(** A keyword and a text on a fresh writer and on one that holds text. *)
Lemma X1_dispatch_appends_only_witness :
  indent (WriteString "old" NewOrgWriter) = indent NewOrgWriter
  /\ TagsColumn (WriteString "old" NewOrgWriter) = TagsColumn NewOrgWriter
  /\ exampleNodes [Keyword "TITLE" "x"; Text "a"] (WriteString "old" NewOrgWriter)
     = Ok {| TagsColumn := 77;
             stringBuilder := "old" ++ ("#+TITLE: x" ++ newline ++ "a");
             indent := EmptyString |}.
Proof.
  split; [reflexivity|]. split; [reflexivity|].
  exact (X1_dispatch_appends_only
           exampleRawTextBlock exampleEmptyLineParagraph
           [Keyword "TITLE" "x"; Text "a"]
           NewOrgWriter (WriteString "old" NewOrgWriter) eq_refl eq_refl).
Defined.

(** A footnote table whose only definition is inline. *)
Lemma X10_footnote_section_all_inline_witness :
  size (Definitions (DocFootnotes (mkDocument [] exampleFootnotes))) <> 0%nat
  /\ Forall (fun definition => fdInline definition = true)
       (exampleOrdered (DocFootnotes (mkDocument [] exampleFootnotes)))
  /\ after exampleRawTextBlock exampleEmptyLineParagraph exampleOrdered
       (mkDocument [] exampleFootnotes) NewOrgWriter
     = Ok (WriteString ("* " ++ "Footnotes" ++ newline) NewOrgWriter).
Proof.
  assert (Hsize : size (Definitions (DocFootnotes (mkDocument [] exampleFootnotes)))
                  <> 0%nat) by (vm_compute; discriminate).
  assert (Hinline : Forall (fun definition => fdInline definition = true)
                      (exampleOrdered (DocFootnotes (mkDocument [] exampleFootnotes))))
    by (repeat constructor).
  split; [exact Hsize|]. split; [exact Hinline|].
  exact (X10_footnote_section_all_inline
           exampleRawTextBlock exampleEmptyLineParagraph exampleOrdered
           (mkDocument [] exampleFootnotes) NewOrgWriter Hsize Hinline).
Defined.

(** Two pairs, and a last key without a value. *)
Lemma X12_attributes_in_pairs_witness :
  Nat.even (length [":width"; "10 px"]) = true
  /\ writeAttributes ([":width"; "10 px"] ++ [":k"; "v"])%list NewOrgWriter
     = writeAttributes [":k"; "v"]
         (writeAttributes [":width"; "10 px"] NewOrgWriter)
  /\ writeAttributes ([":width"; "10 px"] ++ ["odd"])%list NewOrgWriter
     = writeAttributes [":width"; "10 px"] NewOrgWriter.
Proof.
  split; [reflexivity|].
  exact (X12_attributes_in_pairs [":width"; "10 px"] [":k"; "v"] "odd"
           NewOrgWriter eq_refl).
Defined.

(** A list item in a list item: the inner bullet stands behind the outer. *)
Lemma X15_list_item_first_child_behind_bullet_witness :
  indentFirst (ListItem "+" [Paragraph [Text "a"]]) = true
  /\ exampleRender [ListItem "+" [Paragraph [Text "a"]]]
       (withIndent (itemIndent "-" NewOrgWriter) NewOrgWriter)
     = Ok ("  + a" ++ newline)
  /\ exists tail,
       "  + a" ++ newline = itemIndent "-" NewOrgWriter ++ tail
       /\ exampleNodes [ListItem "-" [ListItem "+" [Paragraph [Text "a"]]]]
            NewOrgWriter
          = Ok (WriteString
                  (indent NewOrgWriter ++ "-" ++ " " ++ tail) NewOrgWriter).
Proof.
  split; [reflexivity|]. split; [reflexivity|].
  exact (X15_list_item_first_child_behind_bullet
           exampleRawTextBlock exampleEmptyLineParagraph
           "-" (ListItem "+" [Paragraph [Text "a"]]) [] NewOrgWriter
           ("  + a" ++ newline) eq_refl eq_refl).
Defined.

(** The plain tree at tags columns 77 and 10. *)
Lemma X16_tags_column_of_tag_free_trees_witness :
  forallb (tagFree exampleRawTextBlock) examplePlainTree = true
  /\ indent exampleWriter = indent NewOrgWriter
  /\ exampleRender examplePlainTree exampleWriter
     = exampleRender examplePlainTree NewOrgWriter
  /\ exampleNodes examplePlainTree exampleWriter
     = emit (exampleRender examplePlainTree NewOrgWriter) exampleWriter.
Proof.
  split; [reflexivity|]. split; [reflexivity|].
  exact (X16_tags_column_of_tag_free_trees
           exampleRawTextBlock exampleEmptyLineParagraph examplePlainTree
           NewOrgWriter exampleWriter eq_refl eq_refl).
Defined.

(** The inline example on the fresh writer and on the other writer. *)
Lemma X18_inline_content_is_context_free_witness :
  forallb inlineOnly exampleInline = true
  /\ exampleRender exampleInline exampleOtherWriter
     = exampleRender exampleInline NewOrgWriter
  /\ exampleNodes exampleInline exampleOtherWriter
     = emit (exampleRender exampleInline NewOrgWriter) exampleOtherWriter.
Proof.
  split; [reflexivity|].
  exact (X18_inline_content_is_context_free
           exampleRawTextBlock exampleEmptyLineParagraph exampleInline
           NewOrgWriter exampleOtherWriter eq_refl).
Defined.
